(** * triarc: the [Backend] base class ([triarc/bot/backend.py])

    A shallow embedding of the listener registry, the dispatch loop
    [receive_message], the attrs-generated constructor and the stop-scope
    bookkeeping of [Backend], together with the properties its
    specification states about them.

    Python objects that are compared by identity (handler functions,
    [trio.CancelScope] instances) are represented by their object id, a
    [positive].  A Python [set] of such objects is a [gset positive]: an
    unordered collection, iterated in the order of [elements].  That is
    one order for each set of members; CPython's order also depends on the
    hashes of the members and on the history of the set, so the general
    statements below speak of an iteration order of the set and do not
    rely on which one it is.  A [dict] with string keys is a
    [gmap string _]. *)

From Stdlib Require Import NArith Lia.
From stdpp Require Import gmap strings list fin_maps fin_sets.

Set Warnings "-clear-no-such-hyp".

Open Scope string_scope.
Open Scope list_scope.
Open Scope nat_scope.

(** ** Python values, exceptions and results *)

Inductive pyval :=
  | PyNone
  | PyStr (s : string).

Inductive exn :=
  | TypeError (msg : string)
  | AttributeError (msg : string)
  | KeyError (key : positive)
  | RuntimeError (msg : string)
  | Exception (msg : string).

Inductive result (A : Type) :=
  | Ok (a : A)
  | Raise (e : exn).
Arguments Ok {A} a.
Arguments Raise {A} e.

(** The two container classes that meet in the listener fields.  The
    attribute [globallisteners] is declared and defaulted as a [dict] but
    used through [set] operations, so the container class of the value it
    holds is part of the state. *)
Inductive container :=
  | PyDict (d : gmap string (gset positive))
  | PySet (s : gset positive).

(** [s | other] for a set [s]: [set.__or__] accepts sets only; for a dict
    operand both [set.__or__] and the reflected [dict.__ror__] give
    [NotImplemented], which the interpreter turns into a [TypeError]. *)
Definition set_or (s : gset positive) (other : container) : result (gset positive) :=
  match other with
  | PySet t => Ok (s ∪ t)
  | PyDict _ => Raise (TypeError "unsupported operand type(s) for |: 'set' and 'dict'")
  end.

(** [c.add(x)]: a method of [set]; a [dict] has no such attribute. *)
Definition container_add (c : container) (x : positive) : result container :=
  match c with
  | PySet s => Ok (PySet ({[x]} ∪ s))
  | PyDict _ => Raise (AttributeError "'dict' object has no attribute 'add'")
  end.

(** ** trio: child tasks of a nursery

    The children kept in the nursery record are the [watch_scope(scope)]
    coroutines spawned by [new_stop_scope]; the two children that
    [_watch_stop_scopes] starts itself, and what trio does when a child
    raises, are added in [Supervised] further down.  Time is counted in
    milliseconds, so [trio.sleep(0.2)] sleeps for [200]. *)

Inductive task_state :=
  | Runnable
  | Sleeping (deadline : N)
  | Finished
  | Crashed (e : exn).

Record task := mkTask {
  t_scope : positive;
  t_state : task_state
}.

Record Nursery := mkNursery {
  n_open : bool;
  n_tasks : list task
}.

(** [nursery.start_soon(watch_scope, scope)]: the child is queued and
    first runs at the next scheduler pass; a nursery whose block has been
    left refuses new children. *)
Definition start_soon (n : Nursery) (scope : positive) : result Nursery :=
  if n_open n
  then Ok {| n_open := true; n_tasks := n_tasks n ++ [mkTask scope Runnable] |}
  else Raise (RuntimeError "Nursery is closed to new arrivals").

(** ** The [Backend] instance *)

Record Backend := mkBackend {
  identifier : pyval;
  listeners : gmap string (gset positive);
  globallisteners : container;
  stop_scopes : gset positive;
  stop_scope_watcher : option Nursery
}.

Definition set_listeners (b : Backend) (l : gmap string (gset positive)) : Backend :=
  mkBackend (identifier b) l (globallisteners b) (stop_scopes b) (stop_scope_watcher b).

Definition set_globallisteners (b : Backend) (g : container) : Backend :=
  mkBackend (identifier b) (listeners b) g (stop_scopes b) (stop_scope_watcher b).

Definition set_stop_scopes (b : Backend) (s : gset positive) : Backend :=
  mkBackend (identifier b) (listeners b) (globallisteners b) s (stop_scope_watcher b).

Definition set_stop_scope_watcher (b : Backend) (w : option Nursery) : Backend :=
  mkBackend (identifier b) (listeners b) (globallisteners b) (stop_scopes b) w.

(** *** Construction

    [attr.s(auto_attribs=True)] generates [__init__] with one keyword per
    attribute; an argument left out ([None] below) is filled from the
    attribute's default.  A plain [attr.Factory(f)] is called as [f()]. *)

(** [lambda identifier: identifier if identifier is not None
    else str(uuid.uuid4())], applied to a positional argument list;
    [uuid4] is the string [str(uuid.uuid4())] would produce. *)
Definition identifier_factory (uuid4 : string) (args : list pyval) : result pyval :=
  match args with
  | [] => Raise (TypeError "<lambda>() missing 1 required positional argument: 'identifier'")
  | [PyNone] => Ok (PyStr uuid4)
  | [v] => Ok v
  | _ => Raise (TypeError "<lambda>() takes 1 positional argument but more were given")
  end.

Definition Backend_init (uuid4 : string)
    (identifier_arg : option pyval)
    (listeners_arg : option (gmap string (gset positive)))
    (globallisteners_arg : option container)
    (stop_scopes_arg : option (gset positive))
    (stop_scope_watcher_arg : option Nursery) : result Backend :=
  match
    match identifier_arg with
    | Some v => Ok v
    | None => identifier_factory uuid4 []
    end
  with
  | Raise e => Raise e
  | Ok ident =>
      Ok {| identifier := ident;
            listeners := default ∅ listeners_arg;
            globallisteners := default (PyDict ∅) globallisteners_arg;
            stop_scopes := default ∅ stop_scopes_arg;
            stop_scope_watcher := stop_scope_watcher_arg |}
  end.

(** ** Listener registration *)

(** [self.listen(name)(func)]:
    [self.listeners.setdefault(name, set()).add(func); return func]. *)
Definition listen (name : string) (func : positive) (self : Backend) : positive * Backend :=
  (func,
   set_listeners self
     (<[name := {[func]} ∪ default ∅ (listeners self !! name)]> (listeners self))).

(** [self.listen_all()(func)]:
    [self.globallisteners.add(func); return func]. *)
Definition listen_all (func : positive) (self : Backend) : result positive * Backend :=
  match container_add (globallisteners self) func with
  | Ok g => (Ok func, set_globallisteners self g)
  | Raise e => (Raise e, self)
  end.

(** ** Dispatch *)

(** What calling a handler does: it may change the backend (a handler
    closes over it) and either returns or raises. *)
Definition handler := string → pyval → Backend → result unit * Backend.

(** One recorded invocation [listener(kind, data)]. *)
Definition call : Type := positive * string * pyval.

Section Dispatch.

(** The code of the function objects, by object id. *)
Variable fns : positive → handler.

(** [for listener in lists: await listener(kind, data)] over the
    iteration order [ls] of the set; an exception leaves the loop. *)
Fixpoint run_listeners (ls : list positive) (kind : string) (data : pyval)
    (self : Backend) : result unit * Backend * list call :=
  match ls with
  | [] => (Ok tt, self, [])
  | l :: rest =>
      match fns l kind data self with
      | (Ok _, self') =>
          let '(r, self'', tr) := run_listeners rest kind data self' in
          (r, self'', (l, kind, data) :: tr)
      | (Raise e, self') => (Raise e, self', [(l, kind, data)])
      end
  end.

(** [receive_message(kind, data)]:
    [lists = self.listeners.get(kind, set()) | self.globallisteners],
    then the loop over [lists].  The result carries the final backend
    and the invocations made, in order. *)
Definition receive_message (kind : string) (data : pyval) (self : Backend)
    : result unit * Backend * list call :=
  match set_or (default ∅ (listeners self !! kind)) (globallisteners self) with
  | Raise e => (Raise e, self, [])
  | Ok lists => run_listeners (elements lists) kind data self
  end.

End Dispatch.

(** [pre_bot_register(bot)]: [return False]. *)
Definition pre_bot_register {Bot : Type} (self : Backend) (bot : Bot) : bool := false.

(** ** Stop scopes

    The state the stop-scope bookkeeping runs in: the backend, trio's
    clock, the allocator of object ids, and the [cancel_called] flags of
    the [trio.CancelScope] objects (the set of scopes whose flag is
    [True]). *)

Record World := mkWorld {
  clock : N;
  next_id : positive;
  cancel_called : gset positive;
  backend : Backend
}.

Definition with_backend (w : World) (b : Backend) : World :=
  mkWorld (clock w) (next_id w) (cancel_called w) b.

(** [trio.CancelScope()]: a new object, not yet cancelled. *)
Definition CancelScope (w : World) : positive * World :=
  (next_id w,
   mkWorld (clock w) (Pos.succ (next_id w))
           (cancel_called w ∖ {[next_id w]}) (backend w)).

(** [scope.cancel()]. *)
Definition cancel (scope : positive) (w : World) : World :=
  mkWorld (clock w) (next_id w) ({[scope]} ∪ cancel_called w) (backend w).

(** Entering the block of [_watch_stop_scopes]:
    [async with trio.open_nursery() as nursery:
       self.stop_scope_watcher = nursery]. *)
Definition watch_stop_scopes_enter (w : World) : World :=
  with_backend w
    (set_stop_scope_watcher (backend w) (Some (mkNursery true []))).

(** [new_stop_scope()]: the scope is created and added to
    [self.stop_scopes] first; only then is [self.stop_scope_watcher]
    tested, and either the watching child is started or the
    [RuntimeError] raised. *)
Definition new_stop_scope (w : World) : result positive * World :=
  let '(scope, w1) := CancelScope w in
  let w2 :=
    with_backend w1
      (set_stop_scopes (backend w1) ({[scope]} ∪ stop_scopes (backend w1))) in
  match stop_scope_watcher (backend w2) with
  | Some nursery =>
      match start_soon nursery scope with
      | Ok nursery' =>
          (Ok scope,
           with_backend w2 (set_stop_scope_watcher (backend w2) (Some nursery')))
      | Raise e => (Raise e, w2)
      end
  | None =>
      (Raise (RuntimeError
                "Tried to obtain a stop scope while the backend isn't running!"),
       w2)
  end.

(** The polling interval of [watch_scope], [trio.sleep(0.2)], in
    milliseconds. *)
Definition poll_interval : N := 200.

(** One run of the body of [watch_scope(scope)], from its start or from
    the wake-up that ends a sleep:
    [while not scope.cancel_called: await trio.sleep(0.2)] goes back to
    sleep while the flag is unset; otherwise
    [self.stop_scopes.remove(scope)] runs, which raises [KeyError] when
    the scope is not in the set.  Returns the new task state, the new
    [stop_scopes] and the scopes removed (none or one). *)
Definition watch_scope_run (now : N) (cancelled : gset positive)
    (scope : positive) (scopes : gset positive)
    : task_state * gset positive * list positive :=
  if decide (scope ∈ cancelled) then
    if decide (scope ∈ scopes)
    then (Finished, scopes ∖ {[scope]}, [scope])
    else (Crashed (KeyError scope), scopes, [])
  else (Sleeping (now + poll_interval), scopes, []).

(** A child is run by the scheduler when it has just been started or when
    its sleep has reached its deadline. *)
Definition due (now : N) (st : task_state) : bool :=
  match st with
  | Runnable => true
  | Sleeping deadline => (deadline <=? now)%N
  | Finished | Crashed _ => false
  end.

(** One scheduler pass over the children of the nursery at time [now].
    The children share [self.stop_scopes]. *)
Fixpoint run_tasks (now : N) (cancelled : gset positive) (ts : list task)
    (scopes : gset positive) : list task * gset positive * list positive :=
  match ts with
  | [] => ([], scopes, [])
  | t :: rest =>
      if due now (t_state t) then
        let '(st, scopes1, log1) :=
          watch_scope_run now cancelled (t_scope t) scopes in
        let '(rest', scopes2, log2) := run_tasks now cancelled rest scopes1 in
        (mkTask (t_scope t) st :: rest', scopes2, log1 ++ log2)
      else
        let '(rest', scopes2, log2) := run_tasks now cancelled rest scopes in
        (t :: rest', scopes2, log2)
  end.

(** The clock advances by one millisecond and every child that is due
    runs: the scheduler wakes a sleeping task at its deadline. *)
Definition tick (w : World) : World * list positive :=
  let now := (clock w + 1)%N in
  match stop_scope_watcher (backend w) with
  | Some nursery =>
      let '(ts, scopes, log) :=
        run_tasks now (cancel_called w) (n_tasks nursery)
                  (stop_scopes (backend w)) in
      (mkWorld now (next_id w) (cancel_called w)
         (set_stop_scope_watcher (set_stop_scopes (backend w) scopes)
            (Some (mkNursery (n_open nursery) ts))),
       log)
  | None => (mkWorld now (next_id w) (cancel_called w) (backend w), [])
  end.

(** What can happen to the bookkeeping of a backend, and runs of such
    events.  A run returns the final state and the scopes removed from
    [stop_scopes] on the way, in order. *)
Inductive event :=
  | EvNewStopScope
  | EvCancel (scope : positive)
  | EvTick.

Definition step (ev : event) (w : World) : World * list positive :=
  match ev with
  | EvNewStopScope => ((new_stop_scope w).2, [])
  | EvCancel scope => (cancel scope w, [])
  | EvTick => tick w
  end.

Fixpoint run (evs : list event) (w : World) : World * list positive :=
  match evs with
  | [] => (w, [])
  | ev :: rest =>
      let '(w1, log1) := step ev w in
      let '(w2, log2) := run rest w1 in
      (w2, log1 ++ log2)
  end.

Definition is_tick (ev : event) : bool :=
  match ev with EvTick => true | _ => false end.

(** Milliseconds that pass during a run. *)
Definition elapsed (evs : list event) : nat := length (filter is_tick evs).

(** The backend is running: a supervising nursery is set and open. *)
Definition running (w : World) : Prop :=
  ∃ nursery, stop_scope_watcher (backend w) = Some nursery ∧ n_open nursery = true.

(** ** Concrete handlers and backends used in the examples below *)

(** A handler that returns, and one that raises. *)
Definition quiet : handler := λ _ _ b, (Ok tt, b).
Definition failing : handler := λ _ _ b, (Raise (Exception "boom"), b).

(** Function objects [1], [2], ...: all returning; or with [2] raising. *)
Definition all_quiet : positive → handler := λ _, quiet.
Definition second_fails : positive → handler :=
  λ h, if decide (h = 2%positive) then failing else quiet.

(** [Backend(identifier="b")]: every other attribute from its default. *)
Definition default_backend : Backend :=
  mkBackend (PyStr "b") ∅ (PyDict ∅) ∅ None.

(** [Backend(identifier="b", globallisteners=set())]. *)
Definition set_backend : Backend :=
  mkBackend (PyStr "b") ∅ (PySet ∅) ∅ None.

(** The interpreter state right after constructing a backend. *)
Definition initial_world (b : Backend) : World := mkWorld 0 1 ∅ b.

(** ** Predicates on dispatch traces *)

(** The invocations of the handlers [ls], in that order. *)
Definition calls_of (ls : list positive) (kind : string) (data : pyval) : list call :=
  (λ l, (l, kind, data)) <$> ls.

(** The handlers a dispatch of [kind] iterates over, in iteration order;
    none when the union itself raises. *)
Definition dispatched (self : Backend) (kind : string) : list positive :=
  match set_or (default ∅ (listeners self !! kind)) (globallisteners self) with
  | Ok lists => elements lists
  | Raise _ => []
  end.

(** Number of times [h] was invoked in a trace. *)
Definition invocations (h : positive) (tr : list call) : nat :=
  length (filter (λ c : call, c.1.1 = h) tr).

(** [h1] is invoked at some point strictly before [h2]. *)
Definition invoked_before (tr : list call) (h1 h2 : positive) : Prop :=
  ∃ i j c1 c2, i < j ∧ tr !! i = Some c1 ∧ tr !! j = Some c2 ∧ c1.1.1 = h1 ∧ c2.1.1 = h2.

(** ** Predicates on the stop-scope bookkeeping *)

(** The children of the supervising nursery, if there is one. *)
Definition tasks_of (w : World) : list task :=
  match stop_scope_watcher (backend w) with
  | Some nursery => n_tasks nursery
  | None => []
  end.


(** Number of times [s] occurs in a log of removals. *)
Definition removals (s : positive) (log : list positive) : nat :=
  length (filter (λ x, x = s) log).



(** The interpreter state of a started backend: the supervising nursery
    of [_watch_stop_scopes] is open. *)
Definition started_world : World :=
  watch_stop_scopes_enter (initial_world default_backend).

(** Every scope in [stop_scopes] is an object that has been allocated. *)
Definition scopes_allocated (w : World) : Prop :=
  ∀ x, x ∈ stop_scopes (backend w) → (x < next_id w)%positive.

(** ** Reply mutators

    The attribute [mutators] is declared [dict[str, Mutator]] and
    defaulted with [attr.Factory(dict)], but [_register_mutator] calls
    [.add] on it; as for [globallisteners], the container class of the
    value is part of the state.  It is kept beside the [Backend] record,
    which the two methods below do not otherwise read. *)

Inductive mutator_container :=
  | MutDict (d : gmap string positive)
  | MutSet (s : gset positive).

(** What [for mut in self.mutators] yields: the keys of a dict, which are
    strings, or the members of a set, which are [Mutator] objects. *)
Inductive pyitem :=
  | ItemStr (s : string)
  | ItemObj (id : positive).

Definition mutator_items (mutators : mutator_container) : list pyitem :=
  match mutators with
  | MutDict d => ItemStr <$> (map_to_list d).*1
  | MutSet s => ItemObj <$> elements s
  end.

(** [_register_mutator(mutator)]: [self.mutators.add(mutator)]. *)
Definition _register_mutator (mutators : mutator_container) (mutator : positive)
    : result mutator_container :=
  match mutators with
  | MutSet s => Ok (MutSet ({[mutator]} ∪ s))
  | MutDict _ => Raise (AttributeError "'dict' object has no attribute 'add'")
  end.

(** What [mut.modify_message(self, target, reply)] does for a [Mutator]
    object: it is given the backend and returns the new reply or raises. *)
Definition modifier := Backend → string → string → result string * Backend.

Section Mutate.

(** The [modify_message] methods of the [Mutator] objects, by object id. *)
Variable mods : positive → modifier.

(** [for mut in self.mutators:
       reply = mut.modify_message(self, target, reply)]
    over the items [items]; a [str] has no method [modify_message]. *)
Fixpoint mutate_loop (items : list pyitem) (self : Backend)
    (target reply : string) : result string * Backend :=
  match items with
  | [] => (Ok reply, self)
  | ItemStr _ :: _ =>
      (Raise (AttributeError "'str' object has no attribute 'modify_message'"),
       self)
  | ItemObj mut :: rest =>
      match mods mut self target reply with
      | (Ok reply', self') => mutate_loop rest self' target reply'
      | (Raise e, self') => (Raise e, self')
      end
  end.

(** [_mutate_reply(target, reply)]: the loop, then [return reply]. *)
Definition _mutate_reply (mutators : mutator_container) (self : Backend)
    (target reply : string) : result string * Backend :=
  mutate_loop (mutator_items mutators) self target reply.

End Mutate.

(** [_register_mutator] called for each of [ms] in turn, exceptions
    caught by the caller: the container after the calls. *)
Definition register_mutators (ms : list positive) (mutators : mutator_container)
    : mutator_container :=
  foldl (λ c m, match _register_mutator c m with Ok c' => c' | Raise _ => c end)
        mutators ms.

(** ** Sequences of registrations *)

(** A call of [listen(name)(func)] or of [listen_all()(func)]. *)
Inductive registration :=
  | RegListen (name : string) (func : positive)
  | RegListenAll (func : positive).

(** The backend after one registration, whether the call returned or
    raised. *)
Definition register (r : registration) (self : Backend) : Backend :=
  match r with
  | RegListen name func => (listen name func self).2
  | RegListenAll func => (listen_all func self).2
  end.

Definition register_all (rs : list registration) (self : Backend) : Backend :=
  foldl (λ b r, register r b) self rs.

(** ** Well-formed watchers *)

(** A child that has not finished: it has just been started or sleeps. *)
Definition alive (st : task_state) : Prop :=
  st = Runnable ∨ ∃ d, st = Sleeping d.

(** One watcher per scope, each for an allocated scope; a watcher that
    has not finished has its scope in [stop_scopes]; none has crashed. *)
Definition watchers_wf (w : World) : Prop :=
  NoDup (t_scope <$> tasks_of w)
  ∧ (∀ t, t ∈ tasks_of w → (t_scope t < next_id w)%positive)
  ∧ (∀ t, t ∈ tasks_of w → alive (t_state t) →
          t_scope t ∈ stop_scopes (backend w))
  ∧ (∀ t e, t ∈ tasks_of w → t_state t ≠ Crashed e).

(** The state of a backend on which [new_stop_scope()] failed before it
    was started: scope [1] sits in [stop_scopes] without a watcher. *)
Definition leaked_then_started : World :=
  watch_stop_scopes_enter (new_stop_scope (initial_world default_backend)).2.

(** ** The nursery of [_watch_stop_scopes] under trio's supervision

    [_watch_stop_scopes(on_loaded)] opens the nursery, stores it in
    [self.stop_scope_watcher] and starts two children beside the watchers
    that [new_stop_scope] adds later: [_run_until_stopped], which polls
    [self.running()] every 0.05 s, and the caller's [on_loaded].  trio
    supervises the children: when one of them raises, the nursery is
    cancelled, every other child ends at its next checkpoint (a watcher
    inside [trio.sleep] ends there without removing its scope), and the
    nursery is closed; it is also closed once its block is left and no
    child remains.  [self.stop_scope_watcher] keeps referring to it. *)

Record Supervised := mkSupervised {
  sv_world : World;
  sv_run_until_stopped : task_state;
  sv_on_loaded : task_state
}.

Definition is_crashed (st : task_state) : bool :=
  match st with Crashed _ => true | _ => false end.

Definition is_alive (st : task_state) : bool :=
  match st with Runnable | Sleeping _ => true | Finished | Crashed _ => false end.

(** The nursery stored in [self.stop_scope_watcher] is closed to new
    children and none of its children runs again. *)
Definition close_nursery (w : World) : World :=
  with_backend w
    (set_stop_scope_watcher (backend w)
       (match stop_scope_watcher (backend w) with
        | Some nursery => Some (mkNursery false (n_tasks nursery))
        | None => None
        end)).

(** A millisecond passes and no child runs. *)
Definition advance_clock (w : World) : World :=
  mkWorld (clock w + 1) (next_id w) (cancel_called w) (backend w).

(** The polling interval of [_run_until_stopped], [trio.sleep(0.05)], in
    milliseconds. *)
Definition running_poll_interval : N := 50.

Section Supervision.

(** [self.running()]: [Backend] does not define it; a transport subclass
    does.  What the call returns or raises in a given state. *)
Variable running_method : World → result bool.

(** The caller's [on_loaded] coroutine, resumed at time [now]: it is
    still under way ([None]), returns, or raises.  What it does to the
    bookkeeping it does through [new_stop_scope] and [scope.cancel()]. *)
Variable on_loaded : N → option (result unit).

(** One run of [_run_until_stopped]:
    [while self.running(): await trio.sleep(0.05)]. *)
Definition run_until_stopped_run (w : World) (now : N) : task_state :=
  match running_method w with
  | Ok true => Sleeping (now + running_poll_interval)
  | Ok false => Finished
  | Raise e => Crashed e
  end.

Definition on_loaded_run (now : N) : task_state :=
  match on_loaded now with
  | None => Runnable
  | Some (Ok _) => Finished
  | Some (Raise e) => Crashed e
  end.

(** [_watch_stop_scopes(on_loaded)] up to the end of its block: the
    nursery is stored and the two children are started. *)
Definition _watch_stop_scopes (w : World) : Supervised :=
  mkSupervised (watch_stop_scopes_enter w) Runnable Runnable.

(** A millisecond under supervision.  While the nursery is open, the
    children that are due run: [_run_until_stopped], [on_loaded] and, by
    [tick], the watchers.  If a child has raised, or if no child is left,
    the nursery is closed.  Once it is closed only the clock moves. *)
Definition supervised_tick (sw : Supervised) : Supervised * list positive :=
  let w := sv_world sw in
  let now := (clock w + 1)%N in
  match stop_scope_watcher (backend w) with
  | Some nursery =>
      if n_open nursery then
        let rus :=
          if due now (sv_run_until_stopped sw)
          then run_until_stopped_run w now else sv_run_until_stopped sw in
        let ol :=
          if due now (sv_on_loaded sw)
          then on_loaded_run now else sv_on_loaded sw in
        let '(w1, log) := tick w in
        let raised :=
          is_crashed rus || is_crashed ol
          || existsb (λ t, is_crashed (t_state t)) (tasks_of w1) in
        let children_left :=
          is_alive rus || is_alive ol
          || existsb (λ t, is_alive (t_state t)) (tasks_of w1) in
        (mkSupervised
           (if raised || negb children_left then close_nursery w1 else w1)
           rus ol,
         log)
      else
        (mkSupervised (advance_clock w) (sv_run_until_stopped sw) (sv_on_loaded sw),
         [])
  | None =>
      (mkSupervised (advance_clock w) (sv_run_until_stopped sw) (sv_on_loaded sw),
       [])
  end.

Definition supervised_step (ev : event) (sw : Supervised)
    : Supervised * list positive :=
  match ev with
  | EvNewStopScope =>
      (mkSupervised (new_stop_scope (sv_world sw)).2
         (sv_run_until_stopped sw) (sv_on_loaded sw), [])
  | EvCancel scope =>
      (mkSupervised (cancel scope (sv_world sw))
         (sv_run_until_stopped sw) (sv_on_loaded sw), [])
  | EvTick => supervised_tick sw
  end.

Fixpoint supervised_run (evs : list event) (sw : Supervised)
    : Supervised * list positive :=
  match evs with
  | [] => (sw, [])
  | ev :: rest =>
      let '(sw1, log1) := supervised_step ev sw in
      let '(sw2, log2) := supervised_run rest sw1 in
      (sw2, log1 ++ log2)
  end.

End Supervision.




(** A transport subclass whose [running()] returns [True], an
    [on_loaded] that returns at once, and a [Backend] itself, on which
    [self.running()] raises. *)
Definition subclass_running : World → result bool := λ _, Ok true.
Definition on_loaded_returns : N → option (result unit) := λ _, Some (Ok tt).
Definition no_running_method : World → result bool :=
  λ _, Raise (AttributeError "'Backend' object has no attribute 'running'").

(** ** Properties of the dispatch loop *)

Section DispatchLemmas.

Variable fns : positive → handler.
Variables (kind : string) (data : pyval).

Lemma run_listeners_ok ls self :
  (∀ l b, l ∈ ls → (fns l kind data b).1 = Ok tt) →
  ∃ self', run_listeners fns ls kind data self = (Ok tt, self', calls_of ls kind data).
Proof.
  revert self. induction ls as [|l rest IH]; intros self Hok; simpl.
  - by exists self.
  - pose proof (Hok l self ltac:(left)) as Hl.
    destruct (fns l kind data self) as [r self1]; simpl in Hl; subst r.
    destruct (IH self1) as [self2 E].
    { intros l' b Hin. apply Hok. by right. }
    rewrite E. by exists self2.
Qed.

Lemma run_listeners_raise pre h post e self :
  (∀ l b, l ∈ pre → (fns l kind data b).1 = Ok tt) →
  (∀ b, (fns h kind data b).1 = Raise e) →
  ∃ self', run_listeners fns (pre ++ h :: post) kind data self
           = (Raise e, self', calls_of (pre ++ [h]) kind data).
Proof.
  revert self. induction pre as [|l rest IH]; intros self Hok Hraise; simpl.
  - pose proof (Hraise self) as Hh.
    destruct (fns h kind data self) as [r self1]; simpl in Hh; subst r.
    by exists self1.
  - pose proof (Hok l self ltac:(left)) as Hl.
    destruct (fns l kind data self) as [r self1]; simpl in Hl; subst r.
    destruct (IH self1) as [self2 E]; [|done|].
    { intros l' b Hin. apply Hok. by right. }
    rewrite E. by exists self2.
Qed.

(** Whatever the handlers do, a property of the backend that every
    invoked handler preserves is preserved by the loop. *)
Lemma run_listeners_preserves (P : Backend → Prop) ls self :
  (∀ l b, l ∈ ls → P b → P (fns l kind data b).2) →
  P self → P (run_listeners fns ls kind data self).1.2.
Proof.
  revert self. induction ls as [|l rest IH]; intros self Hpres HP; simpl; [done|].
  pose proof (Hpres l self ltac:(left) HP) as Hl.
  destruct (fns l kind data self) as [[[]|e] self1]; simpl in *; [|done].
  specialize (IH self1).
  destruct (run_listeners fns rest kind data self1) as [[r self2] tr]; simpl in *.
  apply IH; [|done]. intros l' b Hin. apply Hpres. by right.
Qed.

Lemma invocations_calls_of h ls :
  NoDup ls → h ∈ ls → invocations h (calls_of ls kind data) = 1.
Proof.
  unfold invocations, calls_of.
  induction 1 as [|l rest Hnin Hnd IH]; intros Hin; [by apply elem_of_nil in Hin|].
  rewrite fmap_cons, filter_cons. simpl.
  apply elem_of_cons in Hin as [->|Hin].
  - rewrite decide_True by done. simpl. f_equal.
    clear IH Hnd. induction rest as [|x xs IHx]; [done|].
    rewrite fmap_cons, filter_cons. simpl.
    rewrite decide_False by (intros ->; apply Hnin; left).
    apply IHx. intros Hx. apply Hnin. by right.
  - rewrite decide_False by (intros ->; done). by apply IH.
Qed.

Lemma invocations_calls_of_absent h ls :
  h ∉ ls → invocations h (calls_of ls kind data) = 0.
Proof.
  unfold invocations, calls_of. induction ls as [|x xs IH]; intros Hnin; [done|].
  rewrite fmap_cons, filter_cons. simpl.
  rewrite decide_False by (intros ->; apply Hnin; left).
  apply IH. intros Hx. apply Hnin. by right.
Qed.

End DispatchLemmas.

(** On a set-valued global collection the union succeeds and, when no
    handler raises, the loop runs through the whole iteration order. *)
Lemma receive_message_ok
    (fns : positive → handler) (kind : string) (data : pyval)
    (self : Backend) (g : gset positive) :
  globallisteners self = PySet g →
  (∀ l b, l ∈ default ∅ (listeners self !! kind) ∪ g →
          (fns l kind data b).1 = Ok tt) →
  ∃ self',
    receive_message fns kind data self
    = (Ok tt, self',
       calls_of (elements (default ∅ (listeners self !! kind) ∪ g)) kind data).
Proof.
  intros Hg Hok. unfold receive_message. rewrite Hg. simpl.
  apply run_listeners_ok. intros l b Hin. apply Hok. by apply elem_of_elements.
Qed.

Lemma invocations_elements h (X : gset positive) kind data :
  h ∈ X → invocations h (calls_of (elements X) kind data) = 1.
Proof.
  intros Hh. apply invocations_calls_of; [apply NoDup_elements|].
  by apply elem_of_elements.
Qed.

(** Registering twice under one kind is the same as registering once. *)
Lemma listen_idempotent name func self :
  listen name func (listen name func self).2 = listen name func self.
Proof.
  unfold listen, set_listeners. simpl. f_equal. f_equal.
  rewrite lookup_insert_eq. simpl. rewrite insert_insert_eq.
  f_equal. by rewrite (assoc_L (∪)), union_idemp_L.
Qed.

Lemma listen_lookup name func self :
  listeners (listen name func self).2 !! name
  = Some ({[func]} ∪ default ∅ (listeners self !! name)).
Proof. unfold listen. simpl. by rewrite lookup_insert_eq. Qed.

(** ** Dispatch: order of invocation *)

(** C1, counterexample.  On [Backend(identifier="b", globallisteners=set())]
    handler [1] is registered under "greet" before handler [2].  The
    registry is the same as when [2] is registered before [1]: the set
    [{1, 2}] keeps no trace of the order.  The dispatch of
    ("greet", "hi") iterates that set and invokes [2] first, so [1] is not
    invoked before [2]. *)
Lemma registration_order_not_kept :
  let b := (listen "greet" 2 (listen "greet" 1 set_backend).2).2 in
  let tr := (receive_message all_quiet "greet" (PyStr "hi") b).2 in
  b = (listen "greet" 1 (listen "greet" 2 set_backend).2).2
  ∧ tr = [(2%positive, "greet", PyStr "hi"); (1%positive, "greet", PyStr "hi")]
  ∧ ¬ invoked_before tr 1 2.
Proof.
  assert ((receive_message all_quiet "greet" (PyStr "hi")
             (listen "greet" 2 (listen "greet" 1 set_backend).2).2).2
          = [(2%positive, "greet", PyStr "hi"); (1%positive, "greet", PyStr "hi")])
    as E by (vm_compute; reflexivity).
  cbv zeta. rewrite E. split; [vm_compute; reflexivity|]. split; [done|].
  intros (i & j & c1 & c2 & Hlt & Hi & Hj & H1 & H2).
  destruct i as [|[|i]], j as [|[|j]]; simpl in *; simplify_eq; lia.
Qed.

(** C1, as amended.  On a backend whose global-listener collection is a
    set, a dispatch during which no handler raises returns normally and
    invokes the members of [listeners.get(kind, set()) | globallisteners]
    with (kind, data), each exactly once, in the iteration order of that
    set. *)
Theorem receive_message_invokes_in_set_order
    (fns : positive → handler) (kind : string) (data : pyval)
    (self : Backend) (g : gset positive) :
  globallisteners self = PySet g →
  (∀ l b, l ∈ default ∅ (listeners self !! kind) ∪ g →
          (fns l kind data b).1 = Ok tt) →
  ∃ self' tr,
    receive_message fns kind data self = (Ok tt, self', tr)
    ∧ tr = calls_of (elements (default ∅ (listeners self !! kind) ∪ g)) kind data
    ∧ ∀ h, h ∈ default ∅ (listeners self !! kind) ∪ g → invocations h tr = 1.
Proof.
  intros Hg Hok.
  destruct (receive_message_ok fns kind data self g Hg Hok) as [self' E].
  eexists self', _. split; [exact E|]. split; [reflexivity|].
  intros h Hh. by apply invocations_elements.
Qed.

Lemma receive_message_invokes_in_set_order_witness :
  let self := (listen "greet" 2 (listen "greet" 1 set_backend).2).2 in
  ∃ self' tr,
    receive_message all_quiet "greet" (PyStr "hi") self = (Ok tt, self', tr)
    ∧ tr = calls_of (elements (default ∅ (listeners self !! "greet") ∪ ∅))
             "greet" (PyStr "hi")
    ∧ ∀ h, h ∈ default ∅ (listeners self !! "greet") ∪ ∅ → invocations h tr = 1.
Proof.
  apply (receive_message_invokes_in_set_order all_quiet "greet" (PyStr "hi")
           (listen "greet" 2 (listen "greet" 1 set_backend).2).2 ∅).
  - reflexivity.
  - intros l b _. reflexivity.
Defined.

(** ** Dispatch: a handler that raises *)

(** C2, counterexample.  Handlers [1] and [2] are registered under
    "greet" and [2], which the loop reaches first, raises: the dispatch
    raises the same exception and [1] is never invoked. *)
Lemma handler_failure_aborts_dispatch :
  let b := (listen "greet" 2 (listen "greet" 1 set_backend).2).2 in
  receive_message second_fails "greet" (PyStr "hi") b
  = (Raise (Exception "boom"), b, [(2%positive, "greet", PyStr "hi")]).
Proof. vm_compute. reflexivity. Qed.

(** C2, as amended.  On a backend whose global-listener collection is a
    set, when the handlers iterated before [h] return and [h] raises [e],
    the dispatch raises [e] to its caller, the invocations made are those
    up to and including [h], and no handler after [h] is invoked. *)
Theorem receive_message_propagates_failure
    (fns : positive → handler) (kind : string) (data : pyval)
    (self : Backend) (g : gset positive)
    (pre post : list positive) (h : positive) (e : exn) :
  globallisteners self = PySet g →
  elements (default ∅ (listeners self !! kind) ∪ g) = pre ++ h :: post →
  (∀ l b, l ∈ pre → (fns l kind data b).1 = Ok tt) →
  (∀ b, (fns h kind data b).1 = Raise e) →
  ∃ self' tr,
    receive_message fns kind data self = (Raise e, self', tr)
    ∧ tr = calls_of (pre ++ [h]) kind data
    ∧ ∀ l, l ∈ post → invocations l tr = 0.
Proof.
  intros Hg Hel Hok Hraise. unfold receive_message. rewrite Hg. simpl.
  rewrite Hel.
  destruct (run_listeners_raise fns kind data pre h post e self Hok Hraise)
    as [self' E].
  exists self', (calls_of (pre ++ [h]) kind data).
  split; [done|]. split; [done|].
  intros l Hl. apply invocations_calls_of_absent.
  pose proof (NoDup_elements (default ∅ (listeners self !! kind) ∪ g)) as Hnd.
  rewrite Hel in Hnd. apply NoDup_app in Hnd as (_ & Hdisj & Hnd).
  apply NoDup_cons in Hnd as [Hh _].
  intros Hin. apply elem_of_app in Hin as [Hin|Hin].
  - apply (Hdisj l Hin). by right.
  - apply list_elem_of_singleton in Hin as ->. done.
Qed.

Lemma receive_message_propagates_failure_witness :
  ∃ self' tr,
    receive_message second_fails "greet" (PyStr "hi")
      (listen "greet" 2 (listen "greet" 1 set_backend).2).2
    = (Raise (Exception "boom"), self', tr)
    ∧ tr = calls_of ([] ++ [2%positive]) "greet" (PyStr "hi")
    ∧ ∀ l, l ∈ [1%positive] → invocations l tr = 0.
Proof.
  apply (receive_message_propagates_failure second_fails "greet" (PyStr "hi")
           (listen "greet" 2 (listen "greet" 1 set_backend).2).2 ∅
           [] [1%positive] 2%positive (Exception "boom")).
  - reflexivity.
  - vm_compute. reflexivity.
  - intros l b Hin. by apply elem_of_nil in Hin.
  - intros b. reflexivity.
Defined.

(** ** Dispatch: global listeners and re-registration *)

(** What the union does once the global-listener collection is a set: a
    handler registered under the kind and globally is one member of the
    union, so a dispatch in which no handler raises invokes it once. *)
Lemma listen_all_then_dispatch_once
    (fns : positive → handler) (kind : string) (data : pyval)
    (self : Backend) (g : gset positive) (h : positive) :
  globallisteners self = PySet g →
  (∀ l b, (fns l kind data b).1 = Ok tt) →
  ∃ b1, listen_all h (listen kind h self).2 = (Ok h, b1)
    ∧ ∃ self' tr, receive_message fns kind data b1 = (Ok tt, self', tr)
                  ∧ invocations h tr = 1.
Proof.
  intros Hg Hok. unfold listen_all. simpl. rewrite Hg. simpl.
  eexists. split; [reflexivity|].
  destruct (receive_message_ok fns kind data
              (set_globallisteners (listen kind h self).2 (PySet ({[h]} ∪ g)))
              ({[h]} ∪ g) eq_refl (λ l b _, Hok l b))
    as [self' E].
  eexists self', _. split; [exact E|]. apply invocations_elements. set_solver.
Qed.

(** C5, on the code.  On [Backend(identifier="b")] the global-listener
    collection is the [dict] made by [attr.Factory(dict)]: registering a
    global handler raises [AttributeError] and leaves the backend as it
    was, and every dispatch, whatever was registered under its kind,
    raises [TypeError] before any handler is invoked. *)
Theorem default_backend_global_listener_fails
    (fns : positive → handler) (uuid4 : string) (h : positive)
    (kind : string) (data : pyval) :
  Backend_init uuid4 (Some (PyStr "b")) None None None None = Ok default_backend
  ∧ listen_all h default_backend
    = (Raise (AttributeError "'dict' object has no attribute 'add'"), default_backend)
  ∧ receive_message fns kind data (listen kind h default_backend).2
    = (Raise (TypeError "unsupported operand type(s) for |: 'set' and 'dict'"),
       (listen kind h default_backend).2, [])
  ∧ invocations h (receive_message fns kind data (listen kind h default_backend).2).2 = 0.
Proof. done. Qed.

(** C6, on the code.  Registering [h] under [k] twice leaves the registry
    as one registration does; but on [Backend(identifier="b")] the
    dispatch that follows raises [TypeError] and invokes nothing. *)
Theorem relisten_then_dispatch_on_default_backend
    (fns : positive → handler) (k : string) (h : positive) (data : pyval) :
  let once := (listen k h default_backend).2 in
  let twice := (listen k h once).2 in
  twice = once
  ∧ receive_message fns k data twice
    = (Raise (TypeError "unsupported operand type(s) for |: 'set' and 'dict'"),
       twice, [])
  ∧ invocations h (receive_message fns k data twice).2 = 0.
Proof.
  cbv zeta. split; [|done].
  by rewrite listen_idempotent.
Qed.

(** What re-registration gives once the global-listener collection is a
    set: [h] is invoked exactly once, with (k, data). *)
Lemma relisten_then_dispatch_once
    (fns : positive → handler) (k : string) (h : positive) (data : pyval)
    (self : Backend) (g : gset positive) :
  globallisteners self = PySet g →
  (∀ l b, (fns l k data b).1 = Ok tt) →
  ∃ self' tr,
    receive_message fns k data (listen k h (listen k h self).2).2 = (Ok tt, self', tr)
    ∧ filter (λ c : call, c.1.1 = h) tr = [(h, k, data)].
Proof.
  intros Hg Hok. rewrite listen_idempotent.
  destruct (receive_message_ok fns k data (listen k h self).2 g
              Hg (λ l b _, Hok l b)) as [self' E].
  eexists self', _. split; [exact E|].
  set (tr := calls_of _ k data). assert (tr = tr) as Htr by done.
  unfold tr at 2 in Htr.
  assert (invocations h tr = 1) as H1.
  { apply invocations_elements. rewrite listen_lookup. simpl. set_solver. }
  unfold invocations in H1.
  assert (Forall (λ c : call, c = (h, k, data)) (filter (λ c : call, c.1.1 = h) tr)) as Hall.
  { apply Forall_forall. intros [[l k'] d'] Hin.
    apply list_elem_of_filter in Hin as [Hl Hin]. simpl in Hl. subst l.
    rewrite Htr in Hin. unfold calls_of in Hin.
    apply list_elem_of_fmap in Hin as (l & Heq & _). by simplify_eq. }
  destruct (filter (λ c : call, c.1.1 = h) tr) as [|c [|c' rest]]; simpl in H1; try lia.
  apply Forall_cons in Hall as [-> _]. done.
Qed.

(** ** Dispatch leaves the registries alone *)

(** C10.  When the handlers a dispatch invokes leave [listeners] and
    [globallisteners] as they find them, so does [receive_message],
    whether it returns or raises; a kind without an entry in [listeners]
    still has none afterwards. *)
Theorem receive_message_keeps_registries
    (fns : positive → handler) (kind : string) (data : pyval) (self : Backend) :
  (∀ l b, l ∈ dispatched self kind →
     listeners (fns l kind data b).2 = listeners b
     ∧ globallisteners (fns l kind data b).2 = globallisteners b) →
  let self' := (receive_message fns kind data self).1.2 in
  listeners self' = listeners self
  ∧ globallisteners self' = globallisteners self
  ∧ (listeners self !! kind = None → listeners self' !! kind = None).
Proof.
  intros Hpres. cbv zeta.
  assert (listeners (receive_message fns kind data self).1.2 = listeners self
          ∧ globallisteners (receive_message fns kind data self).1.2
            = globallisteners self) as [HL HG].
  { unfold receive_message, dispatched in *.
    destruct (set_or (default ∅ (listeners self !! kind)) (globallisteners self))
      as [lists|e]; [|done].
    apply (run_listeners_preserves fns kind data
             (λ b, listeners b = listeners self
                   ∧ globallisteners b = globallisteners self)); [|done].
    intros l b Hin [HL HG]. destruct (Hpres l b Hin) as [HL' HG']. split; congruence. }
  split; [done|]. split; [done|]. by rewrite HL.
Qed.

Lemma receive_message_keeps_registries_witness :
  let self := (listen_all 1 (listen "greet" 2 set_backend).2).2 in
  let self' := (receive_message all_quiet "nobody" (PyStr "hi") self).1.2 in
  listeners self' = listeners self
  ∧ globallisteners self' = globallisteners self
  ∧ (listeners self !! "nobody" = None → listeners self' !! "nobody" = None).
Proof.
  apply (receive_message_keeps_registries all_quiet "nobody" (PyStr "hi")
           (listen_all 1 (listen "greet" 2 set_backend).2).2).
  intros l b _. split; reflexivity.
Defined.

(** ** Construction and registration hooks *)

(** C8, on the code.  [Backend()] without an identifier calls the factory
    lambda with no argument, although it takes one: construction raises
    [TypeError] and no identifier is generated.  An identifier passed as
    [None] is stored as [None]. *)
Theorem Backend_init_without_identifier (uuid4 : string) :
  Backend_init uuid4 None None None None None
  = Raise (TypeError "<lambda>() missing 1 required positional argument: 'identifier'")
  ∧ identifier <$> (match Backend_init uuid4 (Some PyNone) None None None None with
                    | Ok b => Some b | Raise _ => None end)
    = Some PyNone.
Proof. done. Qed.

(** C9.  The default [pre_bot_register] returns [False] for every bot. *)
Theorem pre_bot_register_false {Bot : Type} (self : Backend) (bot : Bot) :
  pre_bot_register self bot = false.
Proof. reflexivity. Qed.

(** ** Stop scopes: one scheduler pass *)

Section SchedulerPass.

Variables (now : N) (cancelled : gset positive).

(** What a pass does to [stop_scopes]: the scopes removed are cancelled
    members of the set, each removed once, and nothing else changes. *)
Lemma run_tasks_spec ts scopes :
  let '(_, scopes', log) := run_tasks now cancelled ts scopes in
  (∀ x, x ∈ scopes' ↔ x ∈ scopes ∧ x ∉ log)
  ∧ (∀ x, x ∈ log → x ∈ cancelled ∧ x ∈ scopes)
  ∧ NoDup log.
Proof.
  revert scopes. induction ts as [|t rest IH]; intros scopes; simpl.
  - split; [|split]; [set_solver|set_solver|constructor].
  - destruct (due now (t_state t)).
    + unfold watch_scope_run.
      destruct (decide (t_scope t ∈ cancelled)) as [Hc|Hc];
        [destruct (decide (t_scope t ∈ scopes)) as [Hs|Hs]|].
      * specialize (IH (scopes ∖ {[t_scope t]})).
        destruct (run_tasks now cancelled rest (scopes ∖ {[t_scope t]}))
          as [[ts' scopes'] log].
        destruct IH as (Hiff & Hlog & Hnd). simpl.
        split; [|split].
        -- intros x. rewrite Hiff. set_solver.
        -- intros x Hx. apply elem_of_cons in Hx as [->|Hx]; [done|].
           apply Hlog in Hx. set_solver.
        -- constructor; [|done]. intros Hx. apply Hlog in Hx. set_solver.
      * specialize (IH scopes).
        destruct (run_tasks now cancelled rest scopes) as [[ts' scopes'] log].
        done.
      * specialize (IH scopes).
        destruct (run_tasks now cancelled rest scopes) as [[ts' scopes'] log].
        done.
    + specialize (IH scopes).
      destruct (run_tasks now cancelled rest scopes) as [[ts' scopes'] log].
      done.
Qed.

Lemma run_tasks_subseteq ts scopes :
  (run_tasks now cancelled ts scopes).1.2 ⊆ scopes.
Proof.
  pose proof (run_tasks_spec ts scopes) as H.
  destruct (run_tasks now cancelled ts scopes) as [[ts' scopes'] log].
  destruct H as (Hiff & _). simpl. intros x Hx. by apply Hiff in Hx as [? _].
Qed.

(** A scope whose flag is unset is neither removed nor logged. *)
Lemma run_tasks_not_cancelled ts scopes s :
  s ∉ cancelled → s ∈ scopes →
  s ∈ (run_tasks now cancelled ts scopes).1.2
  ∧ s ∉ (run_tasks now cancelled ts scopes).2.
Proof.
  intros Hc Hs. pose proof (run_tasks_spec ts scopes) as H.
  destruct (run_tasks now cancelled ts scopes) as [[ts' scopes'] log].
  destruct H as (Hiff & Hlog & _). simpl.
  assert (s ∉ log) by (intros Hx; by apply Hlog in Hx as [? _]).
  split; [|done]. by apply Hiff.
Qed.




End SchedulerPass.

(** ** Stop scopes: invariants of a run *)

Lemma removals_app s l1 l2 : removals s (l1 ++ l2) = removals s l1 + removals s l2.
Proof. unfold removals. by rewrite filter_app, length_app. Qed.

Lemma removals_absent s log : s ∉ log → removals s log = 0.
Proof.
  unfold removals. induction log as [|x xs IH]; intros Hnin; [done|].
  rewrite filter_cons. rewrite decide_False by (intros ->; apply Hnin; left).
  apply IH. intros Hx. apply Hnin. by right.
Qed.

Lemma removals_NoDup s log : NoDup log → removals s log ≤ 1.
Proof.
  induction 1 as [|x xs Hnin Hnd IH]; [unfold removals; simpl; lia|].
  unfold removals in *. rewrite filter_cons. destruct (decide (x = s)) as [->|Hne].
  - simpl. fold (removals s xs). rewrite removals_absent by done. lia.
  - done.
Qed.

Section Tick.

Variable w : World.

Lemma tick_clock : clock (tick w).1 = (clock w + 1)%N.
Proof.
  unfold tick. destruct (stop_scope_watcher (backend w)) as [n|]; [|done].
  by destruct (run_tasks _ _ _ _) as [[ts scopes] log].
Qed.

Lemma tick_next_id : next_id (tick w).1 = next_id w.
Proof.
  unfold tick. destruct (stop_scope_watcher (backend w)) as [n|]; [|done].
  by destruct (run_tasks _ _ _ _) as [[ts scopes] log].
Qed.

Lemma tick_cancel_called : cancel_called (tick w).1 = cancel_called w.
Proof.
  unfold tick. destruct (stop_scope_watcher (backend w)) as [n|]; [|done].
  by destruct (run_tasks _ _ _ _) as [[ts scopes] log].
Qed.

(** The three results of a tick, in terms of the pass over the children. *)
Lemma tick_unfold :
  tasks_of (tick w).1
  = (run_tasks (clock w + 1) (cancel_called w) (tasks_of w)
       (stop_scopes (backend w))).1.1
  ∧ (stop_scope_watcher (backend w) ≠ None →
     stop_scopes (backend (tick w).1)
     = (run_tasks (clock w + 1) (cancel_called w) (tasks_of w)
          (stop_scopes (backend w))).1.2
     ∧ (tick w).2
       = (run_tasks (clock w + 1) (cancel_called w) (tasks_of w)
            (stop_scopes (backend w))).2)
  ∧ (stop_scope_watcher (backend w) = None →
     stop_scopes (backend (tick w).1) = stop_scopes (backend w)
     ∧ (tick w).2 = []).
Proof.
  unfold tick, tasks_of.
  destruct (stop_scope_watcher (backend w)) as [n|] eqn:E; simpl.
  - destruct (run_tasks _ _ _ _) as [[ts scopes] log]. simpl.
    split; [done|]. split; [done|]. intros Hn. discriminate Hn.
  - rewrite E. split; [done|]. split; [|done]. intros Hn. by destruct Hn.
Qed.

Lemma tick_subseteq : stop_scopes (backend (tick w).1) ⊆ stop_scopes (backend w).
Proof.
  destruct tick_unfold as (_ & Hsome & Hnone).
  destruct (stop_scope_watcher (backend w)) as [n|] eqn:E.
  - destruct Hsome as [-> _]; [done|]. apply run_tasks_subseteq.
  - destruct Hnone as [-> _]; done.
Qed.

(** The removals of a tick: cancelled members, each once, and exactly the
    scopes that leave the set. *)
Lemma tick_spec :
  (∀ x, x ∈ stop_scopes (backend (tick w).1)
        ↔ x ∈ stop_scopes (backend w) ∧ x ∉ (tick w).2)
  ∧ (∀ x, x ∈ (tick w).2 → x ∈ cancel_called w ∧ x ∈ stop_scopes (backend w))
  ∧ NoDup (tick w).2.
Proof.
  destruct tick_unfold as (_ & Hsome & Hnone).
  destruct (stop_scope_watcher (backend w)) as [n|] eqn:E.
  - destruct Hsome as [-> ->]; [done|].
    pose proof (run_tasks_spec (clock w + 1) (cancel_called w) (tasks_of w)
                  (stop_scopes (backend w))) as H.
    by destruct (run_tasks _ _ _ _) as [[ts scopes] log].
  - destruct Hnone as [-> ->]; [done|].
    split; [|split]; [set_solver|set_solver|constructor].
Qed.




End Tick.

(** What [new_stop_scope] does to the state, whether it returns or
    raises. *)
Lemma new_stop_scope_effects (w : World) :
  clock (new_stop_scope w).2 = clock w
  ∧ next_id (new_stop_scope w).2 = Pos.succ (next_id w)
  ∧ cancel_called (new_stop_scope w).2 = cancel_called w ∖ {[next_id w]}
  ∧ stop_scopes (backend (new_stop_scope w).2)
    = {[next_id w]} ∪ stop_scopes (backend w)
  ∧ ∀ t, t ∈ tasks_of w → t ∈ tasks_of (new_stop_scope w).2.
Proof.
  unfold new_stop_scope, tasks_of, start_soon. simpl.
  destruct (stop_scope_watcher (backend w)) as [n|] eqn:E; simpl.
  - destruct (n_open n); simpl; rewrite ?E; repeat (split; [done|]).
    + intros t Hin. apply elem_of_app. by left.
    + done.
  - rewrite E. repeat (split; [done|]). done.
Qed.

Lemma new_stop_scope_returns (w : World) :
  running w →
  ∃ w', new_stop_scope w = (Ok (next_id w), w')
        ∧ mkTask (next_id w) Runnable ∈ tasks_of w'.
Proof.
  intros (n & Hn & Hopen).
  unfold new_stop_scope, tasks_of, start_soon. simpl. rewrite Hn. simpl.
  rewrite Hopen. simpl. eexists. split; [done|].
  apply elem_of_app. right. by left.
Qed.


(** A property every event preserves holds after every run. *)
Lemma run_invariant (P : World → Prop) :
  (∀ ev w, P w → P (step ev w).1) →
  ∀ evs w, P w → P (run evs w).1.
Proof.
  intros Hstep evs. induction evs as [|ev rest IH]; intros w HP; [done|].
  simpl. specialize (Hstep ev w HP).
  destruct (step ev w) as [w1 log1]. specialize (IH w1 Hstep).
  by destruct (run rest w1) as [w2 log2].
Qed.

Lemma run_app evs1 evs2 w :
  run (evs1 ++ evs2) w
  = ((run evs2 (run evs1 w).1).1, (run evs1 w).2 ++ (run evs2 (run evs1 w).1).2).
Proof.
  revert w. induction evs1 as [|ev rest IH]; intros w; simpl.
  - by destruct (run evs2 w).
  - destruct (step ev w) as [w1 log1]. rewrite IH.
    destruct (run rest w1) as [w2 log2]. simpl.
    by rewrite (assoc_L (++)).
Qed.

Lemma run_clock evs w :
  clock (run evs w).1 = (clock w + N.of_nat (elapsed evs))%N.
Proof.
  revert w. induction evs as [|ev rest IH]; intros w; simpl.
  - unfold elapsed. simpl. lia.
  - assert (clock (step ev w).1
            = (clock w + N.of_nat (if is_tick ev then 1 else 0))%N) as Hc.
    { destruct ev; simpl.
      - destruct (new_stop_scope_effects w) as [-> _]. lia.
      - lia.
      - rewrite tick_clock. lia. }
    destruct (step ev w) as [w1 log1]. specialize (IH w1).
    destruct (run rest w1) as [w2 log2]. simpl in *. rewrite IH, Hc.
    unfold elapsed. rewrite filter_cons.
    destruct (is_tick ev); simpl; lia.
Qed.

Section OneScope.

Variable s : positive.



(** While nobody cancels [s], it stays in the set and is never removed. *)
Lemma run_not_cancelled evs w :
  EvCancel s ∉ evs →
  (s < next_id w)%positive → s ∉ cancel_called w → s ∈ stop_scopes (backend w) →
  s ∈ stop_scopes (backend (run evs w).1) ∧ s ∉ (run evs w).2.
Proof.
  revert w. induction evs as [|ev rest IH]; intros w Hev Hlt Hc Hs; simpl.
  - split; [done|]. intros Hx. by apply elem_of_nil in Hx.
  - assert ((s < next_id (step ev w).1)%positive
            ∧ (s ∉ cancel_called (step ev w).1)
            ∧ s ∈ stop_scopes (backend (step ev w).1)
            ∧ s ∉ (step ev w).2) as (Hlt1 & Hc1 & Hs1 & Hl1).
    { destruct ev as [|x|]; simpl.
      - destruct (new_stop_scope_effects w) as (_ & Hn & HC & HS & _).
        rewrite Hn, HC, HS. split; [lia|].
        split; [set_solver|]. split; [set_solver|]. intros Hx; by apply elem_of_nil in Hx.
      - split; [done|]. split; [|split; [done|intros Hx; by apply elem_of_nil in Hx]].
        intros Hx. apply elem_of_union in Hx as [Hx|Hx]; [|done].
        apply elem_of_singleton in Hx. subst x. apply Hev. by left.
      - rewrite tick_next_id, tick_cancel_called.
        destruct (tick_spec w) as (Hiff & Hlog & _).
        assert (s ∉ (tick w).2) by (intros Hx; by apply Hlog in Hx as [? _]).
        split; [done|]. split; [done|]. split; [|done]. by apply Hiff. }
    destruct (step ev w) as [w1 log1]. simpl in *.
    destruct (IH w1) as [Hs2 Hl2]; [|done|done|done|].
    { intros Hin. apply Hev. by right. }
    destruct (run rest w1) as [w2 log2]. simpl in *.
    split; [done|]. intros Hin. apply elem_of_app in Hin as [?|?]; done.
Qed.

(** A scope is removed at most once in a run, and not at all when it is
    not in the set to begin with. *)
Lemma run_removals evs w :
  (s < next_id w)%positive →
  removals s (run evs w).2
  ≤ (if decide (s ∈ stop_scopes (backend w)) then 1 else 0).
Proof.
  revert w. induction evs as [|ev rest IH]; intros w Hlt; simpl.
  - unfold removals. simpl. destruct (decide _); lia.
  - assert ((s < next_id (step ev w).1)%positive
            ∧ removals s (step ev w).2
              + (if decide (s ∈ stop_scopes (backend (step ev w).1)) then 1 else 0)
              ≤ (if decide (s ∈ stop_scopes (backend w)) then 1 else 0))
      as [Hlt1 Hstep].
    { destruct ev as [|x|]; simpl.
      - destruct (new_stop_scope_effects w) as (_ & Hn & _ & HS & _).
        rewrite Hn, HS. split; [lia|]. unfold removals. simpl.
        destruct (decide (s ∈ stop_scopes (backend w))) as [Hs|Hs].
        + destruct (decide _); lia.
        + rewrite decide_False; [lia|].
          intros Hx. apply elem_of_union in Hx as [Hx|Hx]; [|done].
          apply elem_of_singleton in Hx. lia.
      - split; [done|]. unfold removals. simpl. lia.
      - rewrite tick_next_id. split; [done|].
        destruct (tick_spec w) as (Hiff & Hlog & Hnd).
        destruct (decide (s ∈ (tick w).2)) as [Hin|Hnin].
        + pose proof (removals_NoDup s _ Hnd).
          rewrite decide_False by (intros Hx; by apply Hiff in Hx as [_ ?]).
          rewrite decide_True by (by apply Hlog in Hin as [_ ?]). lia.
        + rewrite removals_absent by done.
          destruct (decide (s ∈ stop_scopes (backend (tick w).1))) as [Hs|Hs].
          * rewrite decide_True by (by apply Hiff in Hs as [? _]). lia.
          * lia. }
    destruct (step ev w) as [w1 log1]. simpl in *. specialize (IH w1 Hlt1).
    destruct (run rest w1) as [w2 log2]. simpl in *.
    rewrite removals_app. lia.
Qed.

End OneScope.

(** ** Stop scopes: [new_stop_scope] *)

(** C3, on the code.  On a backend that was never started,
    [new_stop_scope()] raises the [RuntimeError], but the scope it has
    just created stays in [stop_scopes]: the set was empty before the call
    and holds that scope after it. *)
Theorem new_stop_scope_not_running_keeps_scope :
  ∃ w',
    new_stop_scope (initial_world default_backend)
    = (Raise (RuntimeError
                "Tried to obtain a stop scope while the backend isn't running!"),
       w')
    ∧ stop_scopes (backend (initial_world default_backend)) = ∅
    ∧ stop_scopes (backend w') = {[1%positive]}
    ∧ stop_scopes (backend w') ≠ stop_scopes (backend (initial_world default_backend)).
Proof.
  eexists. split; [reflexivity|]. split; [reflexivity|]. simpl.
  split; [set_solver|]. set_solver.
Qed.

(** The same on every backend without a supervising nursery. *)
Lemma new_stop_scope_without_watcher (w : World) :
  stop_scope_watcher (backend w) = None →
  ∃ w',
    new_stop_scope w
    = (Raise (RuntimeError
                "Tried to obtain a stop scope while the backend isn't running!"),
       w')
    ∧ stop_scopes (backend w') = {[next_id w]} ∪ stop_scopes (backend w).
Proof.
  intros Hn. unfold new_stop_scope. simpl. rewrite Hn. by eexists.
Qed.

(** C7.  On a running backend [new_stop_scope()] returns a scope that is
    a newly allocated object, not among the scopes held before, not
    cancelled, and a member of [stop_scopes] in the state the call
    returns in. *)
Theorem new_stop_scope_running (w : World) :
  running w →
  scopes_allocated w →
  ∃ scope w',
    new_stop_scope w = (Ok scope, w')
    ∧ scope = next_id w
    ∧ (scope < next_id w')%positive
    ∧ (scope ∉ stop_scopes (backend w))
    ∧ (scope ∉ cancel_called w')
    ∧ scope ∈ stop_scopes (backend w').
Proof.
  intros Hrun Halloc.
  destruct (new_stop_scope_returns w Hrun) as (w' & E & _).
  destruct (new_stop_scope_effects w) as (_ & Hn & HC & HS & _).
  rewrite E in Hn, HC, HS. simpl in *.
  exists (next_id w), w'. split; [done|]. split; [done|].
  split; [rewrite Hn; lia|].
  split; [intros Hx; apply Halloc in Hx; lia|].
  split; [rewrite HC; set_solver|].
  rewrite HS. set_solver.
Qed.

Lemma new_stop_scope_running_witness :
  ∃ scope w',
    new_stop_scope started_world = (Ok scope, w')
    ∧ scope = next_id started_world
    ∧ (scope < next_id w')%positive
    ∧ (scope ∉ stop_scopes (backend started_world))
    ∧ (scope ∉ cancel_called w')
    ∧ scope ∈ stop_scopes (backend w').
Proof.
  apply (new_stop_scope_running started_world).
  - exists (mkNursery true []). split; reflexivity.
  - intros x Hx. simpl in Hx. by apply elem_of_empty in Hx.
Defined.

(** * Further properties of the registry and of dispatch *)

(** ** Registration *)

(** X1.  [listen(name)(func)] returns [func], adds it to the entry of
    [name] next to the handlers already there, and changes nothing else:
    the entries of the other kinds and the other attributes are as
    before. *)
Theorem listen_changes_one_entry (name : string) (func : positive) (self : Backend) :
  (listen name func self).1 = func
  ∧ (∀ x, x ∈ default ∅ (listeners (listen name func self).2 !! name)
          ↔ x = func ∨ x ∈ default ∅ (listeners self !! name))
  ∧ (∀ name', name' ≠ name →
       listeners (listen name func self).2 !! name' = listeners self !! name')
  ∧ identifier (listen name func self).2 = identifier self
  ∧ globallisteners (listen name func self).2 = globallisteners self
  ∧ stop_scopes (listen name func self).2 = stop_scopes self
  ∧ stop_scope_watcher (listen name func self).2 = stop_scope_watcher self.
Proof.
  split; [done|]. split.
  { intros x. rewrite listen_lookup. simpl. set_solver. }
  split; [|done].
  intros name' Hne. unfold listen. simpl. by rewrite lookup_insert_ne.
Qed.

(** X3.  When the global-listener collection is a set, [listen_all]
    returns the handler, adds it to that set, leaves [listeners] alone,
    and a second registration of the same handler changes nothing. *)
Theorem listen_all_on_set (h : positive) (self : Backend) (g : gset positive) :
  globallisteners self = PySet g →
  ∃ self',
    listen_all h self = (Ok h, self')
    ∧ globallisteners self' = PySet ({[h]} ∪ g)
    ∧ listeners self' = listeners self
    ∧ listen_all h self' = (Ok h, self').
Proof.
  intros Hg. unfold listen_all. rewrite Hg. simpl.
  eexists. split; [reflexivity|]. split; [done|]. split; [done|].
  unfold set_globallisteners. simpl. do 3 f_equal.
  by rewrite (assoc_L (∪)), union_idemp_L.
Qed.

Lemma listen_all_on_set_witness :
  ∃ self',
    listen_all 1 set_backend = (Ok 1%positive, self')
    ∧ globallisteners self' = PySet ({[1%positive]} ∪ ∅)
    ∧ listeners self' = listeners set_backend
    ∧ listen_all 1 self' = (Ok 1%positive, self').
Proof. apply (listen_all_on_set 1 set_backend ∅). reflexivity. Defined.

(** X4.  While the global-listener collection is a dict, no sequence of
    [listen] and [listen_all] calls changes that: the collection stays
    the same dict, and a dispatch of any kind after them raises
    [TypeError], invokes no handler and leaves the backend as it is. *)
Theorem dict_backend_never_dispatches
    (fns : positive → handler) (rs : list registration)
    (kind : string) (data : pyval) (self : Backend)
    (d : gmap string (gset positive)) :
  globallisteners self = PyDict d →
  globallisteners (register_all rs self) = PyDict d
  ∧ receive_message fns kind data (register_all rs self)
    = (Raise (TypeError "unsupported operand type(s) for |: 'set' and 'dict'"),
       register_all rs self, []).
Proof.
  intros Hd.
  assert (globallisteners (register_all rs self) = PyDict d) as Hd'.
  { unfold register_all. revert self Hd.
    induction rs as [|r rest IH]; intros self Hd; [done|]. simpl.
    apply IH. destruct r as [name func|func]; simpl; [done|].
    unfold listen_all. by rewrite Hd. }
  split; [done|]. unfold receive_message. by rewrite Hd'.
Qed.

Lemma dict_backend_never_dispatches_witness :
  globallisteners
    (register_all [RegListen "greet" 1; RegListenAll 2; RegListen "greet" 2]
       default_backend) = PyDict ∅
  ∧ receive_message all_quiet "greet" (PyStr "hi")
      (register_all [RegListen "greet" 1; RegListenAll 2; RegListen "greet" 2]
         default_backend)
    = (Raise (TypeError "unsupported operand type(s) for |: 'set' and 'dict'"),
       register_all [RegListen "greet" 1; RegListenAll 2; RegListen "greet" 2]
         default_backend, []).
Proof.
  apply (dict_backend_never_dispatches all_quiet
           [RegListen "greet" 1; RegListenAll 2; RegListen "greet" 2]
           "greet" (PyStr "hi") default_backend ∅).
  reflexivity.
Defined.

(** ** Dispatch with arbitrary handlers *)

Lemma run_listeners_prefix (fns : positive → handler) kind data ls self :
  ∃ n, (run_listeners fns ls kind data self).2 = calls_of (take n ls) kind data
       ∧ ((run_listeners fns ls kind data self).1.1 = Ok tt → n = length ls).
Proof.
  revert self. induction ls as [|l rest IH]; intros self; simpl.
  - by exists 0.
  - destruct (fns l kind data self) as [[[]|e] self1].
    + destruct (IH self1) as (n & Htr & Hok).
      destruct (run_listeners fns rest kind data self1) as [[r self2] tr].
      simpl in *. exists (S n). split; [by rewrite Htr|].
      intros Hr. by rewrite (Hok Hr).
    + exists 1. simpl. split; [by destruct rest|]. done.
Qed.

Lemma dispatched_NoDup self kind : NoDup (dispatched self kind).
Proof.
  unfold dispatched. destruct (set_or _ _); [apply NoDup_elements|constructor].
Qed.

Lemma invocations_le_1 h ls kind data :
  NoDup ls → invocations h (calls_of ls kind data) ≤ 1.
Proof.
  intros Hnd. destruct (decide (h ∈ ls)) as [Hin|Hnin].
  - by rewrite invocations_calls_of.
  - rewrite invocations_calls_of_absent by done. lia.
Qed.

(** X5.  Whatever the handlers do (raise, register further listeners,
    change the backend), the invocations of one dispatch are an initial
    part of the iteration over the set computed before the loop: every
    handler is invoked at most once, and a handler that was neither
    registered under the kind nor globally when the dispatch began is not
    invoked at all. *)
Theorem receive_message_invokes_snapshot_prefix
    (fns : positive → handler) (kind : string) (data : pyval) (self : Backend) :
  (∃ n, (receive_message fns kind data self).2
        = calls_of (take n (dispatched self kind)) kind data)
  ∧ (∀ h, invocations h (receive_message fns kind data self).2 ≤ 1)
  ∧ (∀ h, h ∉ dispatched self kind →
          invocations h (receive_message fns kind data self).2 = 0).
Proof.
  assert (∃ n, (receive_message fns kind data self).2
               = calls_of (take n (dispatched self kind)) kind data) as [n Hn].
  { unfold receive_message, dispatched.
    destruct (set_or _ _) as [lists|e]; [|by exists 0].
    destruct (run_listeners_prefix fns kind data (elements lists) self)
      as (n & Htr & _). by exists n. }
  split; [by exists n|]. rewrite Hn.
  pose proof (dispatched_NoDup self kind) as Hnd.
  split.
  - intros h. apply invocations_le_1.
    eapply sublist_NoDup; [exact Hnd|apply sublist_take].
  - intros h Hnin. apply invocations_calls_of_absent.
    intros Hin. apply Hnin. apply elem_of_take in Hin as (i & Hi & _).
    by apply list_elem_of_lookup_2 in Hi.
Qed.

(** X6.  A dispatch that returns has gone through the whole set: the
    global-listener collection is a set, and every handler registered
    under the kind or globally when the dispatch began was invoked exactly
    once, in the iteration order of their union. *)
Theorem receive_message_returns_complete
    (fns : positive → handler) (kind : string) (data : pyval)
    (self self' : Backend) (tr : list call) :
  receive_message fns kind data self = (Ok tt, self', tr) →
  ∃ g, globallisteners self = PySet g
       ∧ tr = calls_of (elements (default ∅ (listeners self !! kind) ∪ g)) kind data
       ∧ ∀ h, h ∈ default ∅ (listeners self !! kind) ∪ g → invocations h tr = 1.
Proof.
  unfold receive_message. intros E.
  destruct (globallisteners self) as [d|g] eqn:Hg; simpl in E; [done|].
  exists g. split; [done|].
  destruct (run_listeners_prefix fns kind data
              (elements (default ∅ (listeners self !! kind) ∪ g)) self)
    as (n & Htr & Hok).
  rewrite E in Htr, Hok. simpl in *. rewrite (Hok eq_refl), firstn_all in Htr.
  split; [done|]. intros h Hh. rewrite Htr. by apply invocations_elements.
Qed.

Lemma receive_message_returns_complete_witness :
  let self := (listen "greet" 2 (listen "greet" 1 set_backend).2).2 in
  ∃ g, globallisteners self = PySet g
       ∧ [(2%positive, "greet", PyStr "hi"); (1%positive, "greet", PyStr "hi")]
         = calls_of (elements (default ∅ (listeners self !! "greet") ∪ g))
             "greet" (PyStr "hi")
       ∧ ∀ h, h ∈ default ∅ (listeners self !! "greet") ∪ g →
              invocations h [(2%positive, "greet", PyStr "hi");
                             (1%positive, "greet", PyStr "hi")] = 1.
Proof.
  apply (receive_message_returns_complete all_quiet "greet" (PyStr "hi")
           (listen "greet" 2 (listen "greet" 1 set_backend).2).2
           (listen "greet" 2 (listen "greet" 1 set_backend).2).2).
  vm_compute. reflexivity.
Defined.

(** X7.  With a set as global-listener collection, a handler registered
    through [listen_all] is invoked exactly once by a dispatch of any
    kind, registered under it or not, as long as no handler raises. *)
Theorem global_listener_invoked_for_every_kind
    (fns : positive → handler) (h : positive) (kind : string) (data : pyval)
    (self : Backend) (g : gset positive) :
  globallisteners self = PySet g →
  (∀ l b, (fns l kind data b).1 = Ok tt) →
  ∃ self' tr,
    receive_message fns kind data (listen_all h self).2 = (Ok tt, self', tr)
    ∧ invocations h tr = 1.
Proof.
  intros Hg Hok. unfold listen_all. rewrite Hg. simpl.
  destruct (receive_message_ok fns kind data
              (set_globallisteners self (PySet ({[h]} ∪ g)))
              ({[h]} ∪ g) eq_refl (λ l b _, Hok l b))
    as [self' E].
  eexists self', _. split; [exact E|]. apply invocations_elements. set_solver.
Qed.

Lemma global_listener_invoked_for_every_kind_witness :
  ∃ self' tr,
    receive_message all_quiet "part" (PyStr "bye")
      (listen_all 3 (listen "greet" 1 set_backend).2).2 = (Ok tt, self', tr)
    ∧ invocations 3 tr = 1.
Proof.
  apply (global_listener_invoked_for_every_kind all_quiet 3 "part" (PyStr "bye")
           (listen "greet" 1 set_backend).2 ∅).
  - reflexivity.
  - intros l b. reflexivity.
Defined.

(** X8.  A dispatch of a kind nobody listens to, on a backend with an
    empty set of global listeners, returns without invoking anything and
    leaves the backend as it is. *)
Theorem receive_message_nobody_listening
    (fns : positive → handler) (kind : string) (data : pyval) (self : Backend) :
  default ∅ (listeners self !! kind) = ∅ →
  globallisteners self = PySet ∅ →
  receive_message fns kind data self = (Ok tt, self, []).
Proof.
  intros Hk Hg. unfold receive_message. rewrite Hk, Hg. simpl.
  by rewrite (left_id_L ∅ (∪)), elements_empty.
Qed.

Lemma receive_message_nobody_listening_witness :
  receive_message second_fails "part" (PyStr "bye")
    (listen "greet" 2 set_backend).2
  = (Ok tt, (listen "greet" 2 set_backend).2, []).
Proof.
  apply (receive_message_nobody_listening second_fails "part" (PyStr "bye")
           (listen "greet" 2 set_backend).2); reflexivity.
Defined.

(** * Further properties of the reply mutators *)

Lemma register_mutators_dict ms d :
  register_mutators ms (MutDict d) = MutDict d.
Proof. unfold register_mutators. induction ms as [|m rest IH]; [done|]. simpl. apply IH. Qed.

(** X9.  On the default [mutators], the dict made by [attr.Factory(dict)],
    every [_register_mutator] raises [AttributeError], so the collection
    stays empty whatever is registered, and [_mutate_reply] returns the
    reply it was given and leaves the backend alone. *)
Theorem default_mutators_never_change_reply
    (mods : positive → modifier) (ms : list positive)
    (self : Backend) (target reply : string) :
  (∀ m, _register_mutator (MutDict ∅) m
        = Raise (AttributeError "'dict' object has no attribute 'add'"))
  ∧ register_mutators ms (MutDict ∅) = MutDict ∅
  ∧ _mutate_reply mods (register_mutators ms (MutDict ∅)) self target reply
    = (Ok reply, self).
Proof.
  split; [done|]. rewrite register_mutators_dict. split; [done|].
  unfold _mutate_reply, mutator_items. by rewrite map_to_list_empty.
Qed.

(** X10.  When [mutators] is a dict with at least one entry, the loop of
    [_mutate_reply] iterates its keys, which are strings: the call raises
    [AttributeError] before any mutator is applied and leaves the backend
    alone. *)
Theorem mutate_reply_on_dict_raises
    (mods : positive → modifier) (d : gmap string positive)
    (self : Backend) (target reply : string) :
  d ≠ ∅ →
  _mutate_reply mods (MutDict d) self target reply
  = (Raise (AttributeError "'str' object has no attribute 'modify_message'"),
     self).
Proof.
  intros Hd. unfold _mutate_reply, mutator_items.
  destruct (map_to_list d) as [|[k v] rest] eqn:E.
  - by apply map_to_list_empty_iff in E.
  - done.
Qed.

Lemma mutate_reply_on_dict_raises_witness :
  _mutate_reply (λ _ b _ r, (Ok r, b)) (MutDict {["caps" := 1%positive]})
    default_backend "#chan" "hello"
  = (Raise (AttributeError "'str' object has no attribute 'modify_message'"),
     default_backend).
Proof.
  apply (mutate_reply_on_dict_raises (λ _ b _ r, (Ok r, b))
           {["caps" := 1%positive]} default_backend "#chan" "hello").
  intros H. apply (f_equal (λ m : gmap string positive, m !! "caps")) in H.
  vm_compute in H. discriminate H.
Defined.

Lemma mutate_loop_preserves (P : string → Prop) (mods : positive → modifier)
    target items self reply reply' self' :
  (∀ m b r r' b', mods m b target r = (Ok r', b') → P r → P r') →
  P reply →
  mutate_loop mods items self target reply = (Ok reply', self') → P reply'.
Proof.
  intros Hmods. revert self reply.
  induction items as [|[s|m] rest IH]; intros self reply HP E; simpl in E.
  - by simplify_eq.
  - done.
  - destruct (mods m self target reply) as [[r1|e] self1] eqn:Em; [|done].
    eapply IH; [|exact E]. by eapply Hmods.
Qed.

(** X11.  A property of the reply that every mutator keeps is kept by
    [_mutate_reply]: when the call returns, the reply it returns has the
    property, whatever the mutators and the order they ran in. *)
Theorem mutate_reply_preserves
    (P : string → Prop) (mods : positive → modifier)
    (mutators : mutator_container) (self self' : Backend)
    (target reply reply' : string) :
  (∀ m b r r' b', mods m b target r = (Ok r', b') → P r → P r') →
  P reply →
  _mutate_reply mods mutators self target reply = (Ok reply', self') →
  P reply'.
Proof. intros Hmods HP E. by eapply mutate_loop_preserves. Qed.

Lemma mutate_reply_preserves_witness :
  "!!hello" ≠ EmptyString.
Proof.
  apply (mutate_reply_preserves (λ r, r ≠ EmptyString)
           (λ _ b _ r, (Ok (String.append "!" r), b))
           (MutSet {[1%positive; 2%positive]}) default_backend default_backend
           "#chan" "hello" "!!hello").
  - intros m b r r' b' E _. injection E as <- _. discriminate.
  - discriminate.
  - vm_compute. reflexivity.
Defined.

(** X12.  With a set as [mutators], whatever it holds, registering a
    mutator a second time changes nothing; and when that mutator is the
    only one in the set, [_mutate_reply] is one call of its
    [modify_message]. *)
Theorem register_mutator_twice_applies_once
    (mods : positive → modifier) (m : positive) (s : gset positive)
    (self : Backend) (target reply : string) :
  ∃ c, _register_mutator (MutSet s) m = Ok c
       ∧ _register_mutator c m = Ok c
       ∧ (s ⊆ {[m]} →
          _mutate_reply mods c self target reply = mods m self target reply).
Proof.
  exists (MutSet ({[m]} ∪ s)). simpl.
  split; [done|].
  split; [by rewrite (assoc_L (∪)), union_idemp_L|].
  intros Hs. replace ({[m]} ∪ s) with ({[m]} : gset positive) by set_solver.
  unfold _mutate_reply, mutator_items. rewrite elements_singleton. simpl.
  by destruct (mods m self target reply) as [[r|e] b].
Qed.

Lemma register_mutator_twice_applies_once_witness :
  ∃ c, _register_mutator (MutSet {[2%positive]}) 2 = Ok c
       ∧ _register_mutator c 2 = Ok c
       ∧ ({[2%positive]} ⊆ ({[2%positive]} : gset positive) →
          _mutate_reply (λ _ b _ r, (Ok (String.append "!" r), b)) c
            default_backend "#chan" "hello"
          = (Ok "!hello", default_backend)).
Proof.
  apply (register_mutator_twice_applies_once
           (λ _ b _ r, (Ok (String.append "!" r), b)) 2 {[2%positive]}
           default_backend "#chan" "hello").
Defined.

(** * Further properties of the stop-scope bookkeeping *)

(** X13.  [new_stop_scope()] returns a scope exactly when the backend is
    running, that is when [stop_scope_watcher] holds an open nursery; in
    every other state it raises. *)
Theorem new_stop_scope_returns_iff_running (w : World) :
  (∃ scope w', new_stop_scope w = (Ok scope, w')) ↔ running w.
Proof.
  split.
  - intros (scope & w' & E). unfold new_stop_scope, start_soon in E. simpl in E.
    destruct (stop_scope_watcher (backend w)) as [n|] eqn:Hn; [|done].
    destruct (n_open n) eqn:Hopen; [|done]. by exists n.
  - intros Hrun. destruct (new_stop_scope_returns w Hrun) as (w' & E & _).
    by exists (next_id w), w'.
Qed.

Section SchedulerPassTasks.

Variables (now : N) (cancelled : gset positive).

(** A pass keeps the children and their scopes; only states change. *)
Lemma run_tasks_scopes ts scopes :
  t_scope <$> (run_tasks now cancelled ts scopes).1.1 = t_scope <$> ts.
Proof.
  revert scopes. induction ts as [|t rest IH]; intros scopes; [done|]. simpl.
  destruct (due now (t_state t)).
  - destruct (watch_scope_run now cancelled (t_scope t) scopes)
      as [[st scopes1] log1].
    specialize (IH scopes1).
    destruct (run_tasks now cancelled rest scopes1) as [[ts' scopes'] log].
    simpl in *. by f_equal.
  - specialize (IH scopes).
    destruct (run_tasks now cancelled rest scopes) as [[ts' scopes'] log].
    simpl in *. by f_equal.
Qed.

(** Only the scope of a child is ever removed. *)
Lemma run_tasks_log_scopes ts scopes x :
  x ∈ (run_tasks now cancelled ts scopes).2 → x ∈ t_scope <$> ts.
Proof.
  revert scopes. induction ts as [|t rest IH]; intros scopes; simpl.
  - intros Hx. by apply elem_of_nil in Hx.
  - destruct (due now (t_state t)).
    + unfold watch_scope_run.
      destruct (decide (t_scope t ∈ cancelled));
        [destruct (decide (t_scope t ∈ scopes))|].
      * specialize (IH (scopes ∖ {[t_scope t]})).
        destruct (run_tasks now cancelled rest (scopes ∖ {[t_scope t]}))
          as [[ts' scopes'] log]. simpl in *.
        intros Hx. apply elem_of_cons in Hx as [->|Hx]; [by left|].
        right. by apply IH.
      * specialize (IH scopes).
        destruct (run_tasks now cancelled rest scopes) as [[ts' scopes'] log].
        simpl in *. intros Hx. right. by apply IH.
      * specialize (IH scopes).
        destruct (run_tasks now cancelled rest scopes) as [[ts' scopes'] log].
        simpl in *. intros Hx. right. by apply IH.
    + specialize (IH scopes).
      destruct (run_tasks now cancelled rest scopes) as [[ts' scopes'] log].
      simpl in *. intros Hx. right. by apply IH.
Qed.

(** With one watcher per scope, each unfinished one holding its scope in
    the set and none crashed, a pass leaves the children in the same
    condition: no [remove] raises [KeyError]. *)
Lemma run_tasks_wf ts scopes :
  NoDup (t_scope <$> ts) →
  (∀ t, t ∈ ts → alive (t_state t) → t_scope t ∈ scopes) →
  (∀ t e, t ∈ ts → t_state t ≠ Crashed e) →
  (∀ t, t ∈ (run_tasks now cancelled ts scopes).1.1 → alive (t_state t) →
        t_scope t ∈ (run_tasks now cancelled ts scopes).1.2)
  ∧ (∀ t e, t ∈ (run_tasks now cancelled ts scopes).1.1 → t_state t ≠ Crashed e).
Proof.
  revert scopes. induction ts as [|t rest IH]; intros scopes Hnd Hal Hcr.
  { simpl. split; intros t; [|intros e]; intros Hin; by apply elem_of_nil in Hin. }
  rewrite fmap_cons in Hnd. apply NoDup_cons in Hnd as [Hnin Hnd].
  assert (∀ S1, (∀ x, x ∈ S1 ↔ x ∈ scopes ∧ x ≠ t_scope t) ∨ S1 = scopes →
            ∀ t', t' ∈ rest → alive (t_state t') → t_scope t' ∈ S1) as Hrest.
  { intros S1 HS1 t' Hin Ha.
    assert (t_scope t' ∈ scopes) by (apply Hal; [by right|done]).
    destruct HS1 as [HS1| ->]; [|done]. apply HS1. split; [done|].
    intros Heq. apply Hnin. rewrite <- Heq. apply list_elem_of_fmap. by exists t'. }
  assert (∀ t' e, t' ∈ rest → t_state t' ≠ Crashed e) as Hcr'
    by (intros t' e Hin; apply Hcr; by right).
  simpl. destruct (due now (t_state t)) eqn:Hdue.
  - assert (alive (t_state t)) as Ha.
    { destruct (t_state t); simpl in Hdue; try done; [by left|right; by eexists]. }
    assert (t_scope t ∈ scopes) as Hs by (apply Hal; [by left|done]).
    unfold watch_scope_run.
    destruct (decide (t_scope t ∈ cancelled)) as [Hc|Hc].
    + rewrite decide_True by done.
      destruct (IH (scopes ∖ {[t_scope t]}) Hnd) as [IHa IHc].
      { apply Hrest. left. set_solver. }
      { done. }
      destruct (run_tasks now cancelled rest (scopes ∖ {[t_scope t]}))
        as [[ts' scopes'] log]. simpl in *.
      split.
      * intros t' Hin Ha'. apply elem_of_cons in Hin as [->|Hin]; [|by apply IHa].
        destruct Ha' as [?|[d ?]]; done.
      * intros t' e Hin. apply elem_of_cons in Hin as [->|Hin]; [done|by apply IHc].
    + pose proof (run_tasks_not_cancelled now cancelled rest scopes (t_scope t) Hc Hs)
        as [Hkeep _].
      destruct (IH scopes Hnd) as [IHa IHc]; [apply Hrest; by right|done|].
      destruct (run_tasks now cancelled rest scopes) as [[ts' scopes'] log].
      simpl in *. split.
      * intros t' Hin Ha'. apply elem_of_cons in Hin as [->|Hin]; [done|by apply IHa].
      * intros t' e Hin. apply elem_of_cons in Hin as [->|Hin]; [done|by apply IHc].
  - pose proof (run_tasks_log_scopes rest scopes (t_scope t)) as Hlog.
    pose proof (run_tasks_spec now cancelled rest scopes) as Hspec.
    destruct (IH scopes Hnd) as [IHa IHc]; [apply Hrest; by right|done|].
    destruct (run_tasks now cancelled rest scopes) as [[ts' scopes'] log].
    simpl in *. destruct Hspec as (Hiff & _). split.
    * intros t' Hin Ha'. apply elem_of_cons in Hin as [->|Hin]; [|by apply IHa].
      apply Hiff. split; [apply Hal; [by left|done]|]. intros Hx. by apply Hnin, Hlog.
    * intros t' e Hin. apply elem_of_cons in Hin as [->|Hin]; [|by apply IHc].
      apply Hcr. by left.
Qed.

End SchedulerPassTasks.

Lemma tick_tasks_scopes w : t_scope <$> tasks_of (tick w).1 = t_scope <$> tasks_of w.
Proof.
  destruct (tick_unfold w) as (-> & _). apply run_tasks_scopes.
Qed.

Lemma tick_log_scopes w x : x ∈ (tick w).2 → x ∈ t_scope <$> tasks_of w.
Proof.
  destruct (tick_unfold w) as (_ & Hsome & Hnone).
  destruct (stop_scope_watcher (backend w)) as [n|] eqn:E.
  - destruct Hsome as [_ ->]; [done|]. apply run_tasks_log_scopes.
  - destruct Hnone as [_ ->]; [done|]. intros Hx. by apply elem_of_nil in Hx.
Qed.

(** The children after [new_stop_scope]: those before, and the watcher
    of the new scope when the call returned. *)
Lemma new_stop_scope_tasks w :
  tasks_of (new_stop_scope w).2 = tasks_of w
  ∨ tasks_of (new_stop_scope w).2 = tasks_of w ++ [mkTask (next_id w) Runnable].
Proof.
  unfold new_stop_scope, tasks_of, start_soon. simpl.
  destruct (stop_scope_watcher (backend w)) as [n|] eqn:E; simpl.
  - destruct (n_open n); simpl; rewrite ?E; [by right|by left].
  - rewrite E. by left.
Qed.

Lemma step_next_id_le ev w : (next_id w ≤ next_id (step ev w).1)%positive.
Proof.
  destruct ev; simpl.
  - destruct (new_stop_scope_effects w) as (_ & -> & _). lia.
  - lia.
  - rewrite tick_next_id. lia.
Qed.

Lemma run_next_id_le evs w : (next_id w ≤ next_id (run evs w).1)%positive.
Proof.
  revert w. induction evs as [|ev rest IH]; intros w; simpl; [lia|].
  pose proof (step_next_id_le ev w) as H1.
  destruct (step ev w) as [w1 log1]. specialize (IH w1).
  destruct (run rest w1) as [w2 log2]. simpl in *. lia.
Qed.

Lemma scopes_allocated_step ev w : scopes_allocated w → scopes_allocated (step ev w).1.
Proof.
  intros Hal x. destruct ev; simpl.
  - destruct (new_stop_scope_effects w) as (_ & -> & _ & -> & _).
    intros Hx. apply elem_of_union in Hx as [Hx|Hx].
    + apply elem_of_singleton in Hx. lia.
    + apply Hal in Hx. lia.
  - apply Hal.
  - rewrite tick_next_id. intros Hx. apply Hal. by apply tick_subseteq.
Qed.

Lemma cancelled_step x ev w :
  (x < next_id w)%positive ∧ x ∈ cancel_called w →
  (x < next_id (step ev w).1)%positive ∧ x ∈ cancel_called (step ev w).1.
Proof.
  intros [Hlt Hc]. destruct ev; simpl.
  - destruct (new_stop_scope_effects w) as (_ & -> & -> & _).
    split; [lia|]. apply elem_of_difference. split; [done|].
    intros Hx. apply elem_of_singleton in Hx. lia.
  - split; [done|]. apply elem_of_union. by right.
  - by rewrite tick_next_id, tick_cancel_called.
Qed.

(** X15.  Every scope that a run removes from [stop_scopes] has been
    cancelled: at the end of the run its [cancel_called] flag is set. *)
Theorem removed_scopes_were_cancelled (evs : list event) (w : World) (x : positive) :
  scopes_allocated w →
  x ∈ (run evs w).2 → x ∈ cancel_called (run evs w).1.
Proof.
  revert w. induction evs as [|ev rest IH]; intros w Hal; simpl.
  - intros Hx. by apply elem_of_nil in Hx.
  - pose proof (scopes_allocated_step ev w Hal) as Hal1.
    assert (x ∈ (step ev w).2 →
            (x < next_id (step ev w).1)%positive ∧ x ∈ cancel_called (step ev w).1)
      as Hlog1.
    { destruct ev; simpl; try (intros Hx; by apply elem_of_nil in Hx).
      intros Hx. rewrite tick_next_id, tick_cancel_called.
      destruct (tick_spec w) as (_ & Hlog & _). apply Hlog in Hx as [Hc Hs].
      split; [by apply Hal|done]. }
    pose proof (run_invariant _ (cancelled_step x) rest (step ev w).1) as Hkeep.
    destruct (step ev w) as [w1 log1]. simpl in *. specialize (IH w1 Hal1).
    destruct (run rest w1) as [w2 log2]. simpl in *.
    intros Hx. apply elem_of_app in Hx as [Hx|Hx].
    + by apply Hkeep, Hlog1.
    + by apply IH.
Qed.

Lemma removed_scopes_were_cancelled_witness :
  2%positive ∈ cancel_called
                 (run [EvNewStopScope; EvNewStopScope; EvCancel 2; EvTick]
                    started_world).1.
Proof.
  apply (removed_scopes_were_cancelled
           [EvNewStopScope; EvNewStopScope; EvCancel 2; EvTick] started_world 2).
  - intros x Hx. simpl in Hx. by apply elem_of_empty in Hx.
  - replace (run [EvNewStopScope; EvNewStopScope; EvCancel 2; EvTick]
               started_world).2 with [2%positive] by (vm_compute; reflexivity).
    by left.
Defined.

(** X16.  A scope in [stop_scopes] that no child of the nursery watches
    stays there for good: no run removes it, cancelled or not. *)
Theorem unwatched_scope_is_never_removed (evs : list event) (w : World) (s : positive) :
  s ∈ stop_scopes (backend w) →
  (s < next_id w)%positive →
  s ∉ t_scope <$> tasks_of w →
  s ∈ stop_scopes (backend (run evs w).1) ∧ s ∉ (run evs w).2.
Proof.
  revert w. induction evs as [|ev rest IH]; intros w Hs Hlt Hnt; simpl.
  - split; [done|]. intros Hx. by apply elem_of_nil in Hx.
  - assert (s ∈ stop_scopes (backend (step ev w).1)
            ∧ (s < next_id (step ev w).1)%positive
            ∧ (s ∉ t_scope <$> tasks_of (step ev w).1)
            ∧ s ∉ (step ev w).2) as (Hs1 & Hlt1 & Hnt1 & Hl1).
    { destruct ev as [|x|]; simpl.
      - destruct (new_stop_scope_effects w) as (_ & Hn & _ & HS & _).
        rewrite Hn, HS. split; [set_solver|]. split; [lia|].
        split; [|intros Hx; by apply elem_of_nil in Hx].
        destruct (new_stop_scope_tasks w) as [-> | ->]; [done|].
        rewrite fmap_app. intros Hx. apply elem_of_app in Hx as [Hx|Hx]; [done|].
        simpl in Hx. apply list_elem_of_singleton in Hx. lia.
      - split; [done|]. split; [done|]. split; [done|].
        intros Hx. by apply elem_of_nil in Hx.
      - rewrite tick_next_id, tick_tasks_scopes.
        assert (s ∉ (tick w).2) as Hl by (intros Hx; by apply Hnt, tick_log_scopes).
        destruct (tick_spec w) as (Hiff & _).
        split; [by apply Hiff|]. done. }
    destruct (step ev w) as [w1 log1]. simpl in *.
    destruct (IH w1 Hs1 Hlt1 Hnt1) as [Hs2 Hl2].
    destruct (run rest w1) as [w2 log2]. simpl in *.
    split; [done|]. intros Hx. apply elem_of_app in Hx as [?|?]; done.
Qed.

Lemma unwatched_scope_is_never_removed_witness :
  1%positive ∈ stop_scopes
    (backend (run [EvCancel 1; EvTick; EvNewStopScope; EvTick] leaked_then_started).1)
  ∧ 1%positive ∉ (run [EvCancel 1; EvTick; EvNewStopScope; EvTick] leaked_then_started).2.
Proof.
  apply (unwatched_scope_is_never_removed
           [EvCancel 1; EvTick; EvNewStopScope; EvTick] leaked_then_started 1).
  - simpl. set_solver.
  - simpl. lia.
  - simpl. intros Hx. by apply elem_of_nil in Hx.
Defined.

Lemma watchers_wf_step ev w : watchers_wf w → watchers_wf (step ev w).1.
Proof.
  intros (Hnd & Hlt & Hal & Hcr). destruct ev as [|x|]; simpl.
  - destruct (new_stop_scope_effects w) as (_ & Hn & _ & HS & _).
    unfold watchers_wf. rewrite Hn, HS.
    destruct (new_stop_scope_tasks w) as [-> | ->].
    + split; [done|]. split; [intros t Hin; apply Hlt in Hin; lia|].
      split; [|done]. intros t Hin Ha. apply elem_of_union. right. by apply Hal.
    + split.
      { rewrite fmap_app. apply NoDup_app. split; [done|]. split.
        - intros y Hy Hy'. simpl in Hy'. apply list_elem_of_singleton in Hy'. subst y.
          apply list_elem_of_fmap in Hy as (t & Heq & Hin). apply Hlt in Hin. lia.
        - simpl. apply NoDup_singleton. }
      split.
      { intros t Hin. apply elem_of_app in Hin as [Hin|Hin].
        - apply Hlt in Hin. lia.
        - apply list_elem_of_singleton in Hin. subst t. simpl. lia. }
      split.
      { intros t Hin Ha. apply elem_of_app in Hin as [Hin|Hin].
        - apply elem_of_union. right. by apply Hal.
        - apply list_elem_of_singleton in Hin. subst t. simpl. set_solver. }
      intros t e Hin. apply elem_of_app in Hin as [Hin|Hin]; [by apply Hcr|].
      apply list_elem_of_singleton in Hin. by subst t.
  - done.
  - unfold watchers_wf. rewrite tick_tasks_scopes, tick_next_id.
    split; [done|]. split.
    { intros t Hin.
      assert (t_scope t ∈ t_scope <$> tasks_of (tick w).1) as Hsc
        by (apply list_elem_of_fmap; by exists t).
      rewrite tick_tasks_scopes in Hsc.
      apply list_elem_of_fmap in Hsc as (t0 & -> & Hin0). by apply Hlt. }
    destruct (tick_unfold w) as (Hts & Hsome & _). rewrite Hts.
    destruct (stop_scope_watcher (backend w)) as [n|] eqn:E.
    + destruct Hsome as [-> _]; [done|].
      by apply run_tasks_wf.
    + unfold tasks_of. rewrite E. simpl.
      split; [intros t Hin|intros t e Hin]; by apply elem_of_nil in Hin.
Qed.

(** X17.  From a state with one watcher per scope, each unfinished
    watcher holding its scope in [stop_scopes] and none crashed, every
    run leads to such a state: the [self.stop_scopes.remove(scope)] of a
    watcher never raises [KeyError]. *)
Theorem watchers_never_crash (evs : list event) (w : World) :
  watchers_wf w →
  watchers_wf (run evs w).1
  ∧ ∀ t e, t ∈ tasks_of (run evs w).1 → t_state t ≠ Crashed e.
Proof.
  intros Hwf. pose proof (run_invariant _ watchers_wf_step evs w Hwf) as Hwf'.
  split; [done|]. by destruct Hwf' as (_ & _ & _ & Hcr).
Qed.

Lemma watchers_never_crash_witness :
  watchers_wf
    (run [EvNewStopScope; EvNewStopScope; EvCancel 2; EvTick; EvCancel 2; EvTick]
       started_world).1
  ∧ ∀ t e,
      t ∈ tasks_of
            (run [EvNewStopScope; EvNewStopScope; EvCancel 2; EvTick; EvCancel 2; EvTick]
               started_world).1 →
      t_state t ≠ Crashed e.
Proof.
  apply (watchers_never_crash
           [EvNewStopScope; EvNewStopScope; EvCancel 2; EvTick; EvCancel 2; EvTick]
           started_world).
  split; [constructor|].
  split; [intros t Hin; by apply elem_of_nil in Hin|].
  split; [intros t Hin; by apply elem_of_nil in Hin|].
  intros t e Hin. by apply elem_of_nil in Hin.
Defined.

(** X18.  The scopes in [stop_scopes] after a run are those that were
    there before or were created during the run, less those the run
    removed. *)
Theorem stop_scopes_accounting (evs : list event) (w : World) (x : positive) :
  scopes_allocated w →
  x ∈ stop_scopes (backend (run evs w).1)
  ↔ (x ∈ stop_scopes (backend w)
     ∨ ((next_id w ≤ x)%positive ∧ (x < next_id (run evs w).1)%positive))
    ∧ x ∉ (run evs w).2.
Proof.
  revert w. induction evs as [|ev rest IH]; intros w Hal; simpl.
  - split.
    + intros Hx. split; [by left|]. intros H. by apply elem_of_nil in H.
    + intros [[Hx|[? ?]] _]; [done|lia].
  - pose proof (scopes_allocated_step ev w Hal) as Hal1.
    pose proof (run_next_id_le rest (step ev w).1) as Hmono.
    assert ((∀ y, y ∈ (step ev w).2 → (y < next_id w)%positive)
            ∧ (x ∈ stop_scopes (backend (step ev w).1)
               ↔ (x ∈ stop_scopes (backend w)
                  ∨ ((next_id w ≤ x)%positive ∧ (x < next_id (step ev w).1)%positive))
                 ∧ x ∉ (step ev w).2)) as [Hlog1 Hstep].
    { destruct ev as [|c|]; simpl.
      - split; [intros y Hy; by apply elem_of_nil in Hy|].
        destruct (new_stop_scope_effects w) as (_ & -> & _ & -> & _).
        rewrite elem_of_union, elem_of_singleton. split.
        + intros [->|Hx]; (split; [|intros H; by apply elem_of_nil in H]).
          * right. lia.
          * by left.
        + intros [[Hx|[? ?]] _]; [by right|left; lia].
      - split; [intros y Hy; by apply elem_of_nil in Hy|]. split.
        + intros Hx. split; [by left|]. intros H. by apply elem_of_nil in H.
        + intros [[Hx|[? ?]] _]; [done|lia].
      - destruct (tick_spec w) as (Hiff & Hlog & _). rewrite tick_next_id.
        split; [intros y Hy; apply Hlog in Hy as [_ Hy]; by apply Hal|].
        rewrite Hiff. split.
        + intros [Hx Hn]. split; [by left|done].
        + intros [[Hx|[? ?]] Hn]; [done|lia]. }
    pose proof (step_next_id_le ev w) as Hle.
    destruct (step ev w) as [w1 log1]. simpl in *. specialize (IH w1 Hal1).
    destruct (run rest w1) as [w2 log2]. simpl in *.
    rewrite IH, Hstep. split.
    + intros [[[[Hx|[H1 H2]] Hn1]|[H1 H2]] Hn2].
      * split; [by left|]. intros Hy. apply elem_of_app in Hy as [?|?]; done.
      * split; [right; lia|]. intros Hy. apply elem_of_app in Hy as [?|?]; done.
      * split; [right; lia|]. intros Hy. apply elem_of_app in Hy as [Hy|?]; [|done].
        apply Hlog1 in Hy. lia.
    + intros [Hx Hn].
      assert (x ∉ log1) as Hn1 by (intros Hy; apply Hn, elem_of_app; by left).
      assert (x ∉ log2) as Hn2 by (intros Hy; apply Hn, elem_of_app; by right).
      split; [|done]. destruct Hx as [Hx|[H1 H2]].
      * left. split; [by left|done].
      * destruct (decide (x < next_id w1)%positive) as [Hlt|Hge].
        -- left. split; [by right|done].
        -- right. lia.
Qed.

Lemma stop_scopes_accounting_witness :
  3%positive ∈ stop_scopes
    (backend (run [EvNewStopScope; EvNewStopScope; EvCancel 2; EvTick; EvNewStopScope]
                started_world).1)
  ↔ (3%positive ∈ stop_scopes (backend started_world)
     ∨ ((next_id started_world ≤ 3)%positive
        ∧ (3 < next_id (run [EvNewStopScope; EvNewStopScope; EvCancel 2; EvTick;
                             EvNewStopScope] started_world).1)%positive))
    ∧ 3%positive ∉ (run [EvNewStopScope; EvNewStopScope; EvCancel 2; EvTick;
                         EvNewStopScope] started_world).2.
Proof.
  apply (stop_scopes_accounting
           [EvNewStopScope; EvNewStopScope; EvCancel 2; EvTick; EvNewStopScope]
           started_world 3).
  intros x Hx. simpl in Hx. by apply elem_of_empty in Hx.
Defined.

(** * Repeated dispatch *)

(** X19.  With a set as global-listener collection and handlers that
    return and leave both registries as they find them, a dispatch
    returns, and dispatching the same kind and data again returns too and
    invokes the same handlers, each as often as the first dispatch did
    (the order of the second iteration is left open). *)
Theorem receive_message_repeatable
    (fns : positive → handler) (kind : string) (data : pyval)
    (self : Backend) (g : gset positive) :
  globallisteners self = PySet g →
  (∀ l b, (fns l kind data b).1 = Ok tt
          ∧ listeners (fns l kind data b).2 = listeners b
          ∧ globallisteners (fns l kind data b).2 = globallisteners b) →
  (receive_message fns kind data self).1.1 = Ok tt
  ∧ (receive_message fns kind data (receive_message fns kind data self).1.2).1.1
    = Ok tt
  ∧ (receive_message fns kind data (receive_message fns kind data self).1.2).2
    ≡ₚ (receive_message fns kind data self).2.
Proof.
  intros Hg Hfns.
  assert (listeners (receive_message fns kind data self).1.2 = listeners self
          ∧ globallisteners (receive_message fns kind data self).1.2 = PySet g)
    as [HL HG].
  { unfold receive_message. rewrite Hg. simpl.
    apply (run_listeners_preserves fns kind data
             (λ b, listeners b = listeners self ∧ globallisteners b = PySet g));
      [|done].
    intros l b _ [HL HG]. destruct (Hfns l b) as (_ & HL' & HG').
    split; congruence. }
  destruct (receive_message_ok fns kind data self g Hg
              (λ l b _, proj1 (Hfns l b))) as [self1 E1].
  destruct (receive_message_ok fns kind data
              (receive_message fns kind data self).1.2 g HG
              (λ l b _, proj1 (Hfns l b))) as [self2 E2].
  rewrite E2. rewrite HL. rewrite E1. done.
Qed.

Lemma receive_message_repeatable_witness :
  let self := (listen_all 3 (listen "greet" 2 (listen "greet" 1 set_backend).2).2).2 in
  (receive_message all_quiet "greet" (PyStr "hi") self).1.1 = Ok tt
  ∧ (receive_message all_quiet "greet" (PyStr "hi")
       (receive_message all_quiet "greet" (PyStr "hi") self).1.2).1.1 = Ok tt
  ∧ (receive_message all_quiet "greet" (PyStr "hi")
       (receive_message all_quiet "greet" (PyStr "hi") self).1.2).2
    ≡ₚ (receive_message all_quiet "greet" (PyStr "hi") self).2.
Proof.
  apply (receive_message_repeatable all_quiet "greet" (PyStr "hi")
           (listen_all 3 (listen "greet" 2 (listen "greet" 1 set_backend).2).2).2
           {[3%positive]}).
  - vm_compute. reflexivity.
  - intros l b. split; [|split]; reflexivity.
Defined.

(** * Stop scopes under supervision: removal by [watch_scope] *)











Section SupervisedSteps.

Variable running_method : World → result bool.
Variable on_loaded : N → option (result unit).

Abbreviation sup_tick := (supervised_tick running_method on_loaded).
Abbreviation sup_step := (supervised_step running_method on_loaded).
Abbreviation sup_run := (supervised_run running_method on_loaded).









End SupervisedSteps.

Section SupervisedRunning.

Variable running_method : World → result bool.
Variable on_loaded : N → option (result unit).

(** The backend keeps running: [self.running()] is defined and does not
    raise, and [on_loaded] does not raise. *)
Hypothesis running_defined : ∀ w e, running_method w ≠ Raise e.
Hypothesis on_loaded_safe : ∀ now e, on_loaded now ≠ Some (Raise e).

Abbreviation sup_tick' := (supervised_tick running_method on_loaded).
Abbreviation sup_step' := (supervised_step running_method on_loaded).





End SupervisedRunning.



(** The bound is reached: on the started subclass, a scope cancelled
    right after a poll at time 1 ms is still in the set 199 ms later and
    gone after 200 ms. *)
Example poll_interval_is_reached :
  let sw1 := mkSupervised (new_stop_scope started_world).2 Runnable Runnable in
  1%positive ∈ stop_scopes
    (backend (sv_world
       (supervised_run subclass_running on_loaded_returns
          (EvTick :: EvCancel 1 :: repeat EvTick 199) sw1).1))
  ∧ 1%positive ∉ stop_scopes
      (backend (sv_world
         (supervised_run subclass_running on_loaded_returns
            (EvTick :: EvCancel 1 :: repeat EvTick 200) sw1).1)).
Proof.
  cbv zeta. split.
  - apply elem_of_elements.
    replace (elements _) with [1%positive] by (vm_compute; reflexivity).
    by left.
  - intros Hin. apply elem_of_elements in Hin. revert Hin.
    replace (elements _) with (@nil positive) by (vm_compute; reflexivity).
    intros Hin. by apply elem_of_nil in Hin.
Qed.

(** On [Backend] itself, which has no [running()], [_run_until_stopped]
    raises at the first pass: the nursery is cancelled and closed, the
    backend is no longer running, [new_stop_scope()] raises from then on,
    and the watcher of a scope created before that pass is gone with the
    nursery, so that this scope stays in [stop_scopes] when it is
    cancelled later. *)
Example nursery_cancelled_without_running_method :
  let sw := (supervised_run no_running_method on_loaded_returns
               [EvNewStopScope; EvTick]
               (_watch_stop_scopes (initial_world default_backend))).1 in
  is_crashed (sv_run_until_stopped sw) = true
  ∧ ¬ running (sv_world sw)
  ∧ (new_stop_scope (sv_world sw)).1
    = Raise (RuntimeError "Nursery is closed to new arrivals")
  ∧ 1%positive ∈ stop_scopes
      (backend (sv_world
         (supervised_run no_running_method on_loaded_returns
            (EvCancel 1 :: repeat EvTick 400) sw).1)).
Proof.
  cbv zeta. split; [vm_compute; reflexivity|]. split.
  - intros (n & Hn & Hopen). vm_compute in Hn. injection Hn as <-. discriminate Hopen.
  - split; [vm_compute; reflexivity|].
    apply elem_of_elements.
    replace (elements _) with [1%positive] by (vm_compute; reflexivity).
    by left.
Qed.
